(** * Auto-Prompt: license guard, key codec, retry scheduler, scene
    normaliser and script orchestrator

    Shallow embedding of [src/App.tsx] (the license guard [AuthGuard] and
    the batched generation service bundled after it) and of
    [src/services/geminiService.ts] (the single-request generation
    service), followed by the properties of the specification that are
    stated about them.

    Conventions of the embedding.
    - A JavaScript string is the list of its UTF-16 code units ([jsstring]);
      [charCodeAt], [trim], [\s] and [includes] work on code units, as in
      the engine.  String literals of the source are written as Rocq
      strings (UTF-8) and decoded by [js].
    - [String.prototype.toLowerCase] and [toUpperCase] follow the Unicode
      case tables of the engine; they are the two fields of the class
      [CaseMapping], and [asciiCase] is their restriction to ASCII.
    - JavaScript numbers that the code only uses as integers (scene
      numbers, time bounds, epoch milliseconds, attempt counters, waits in
      milliseconds) are [Z]; a missing or [NaN] number is [None].
    - The raw scenes returned by the model have TypeScript type [any]; the
      embedding gives them the shape of the JSON structure the prompts
      require, every field optional.
    - The license server and the generative model are outside the
      program: the first is a function from the key to the outcome of the
      [fetch], the second a function from the position of a request in
      the run and the request to its answer.
    - Asynchronous code is sequential code over an explicit state: the
      [Guard] with its storage and its log of verifier calls, and the
      [World] with the number of requests sent so far and the trace of
      progress messages, requests and waits.

    The definitions come first, in the order of the sources; the
    properties follow, one section per component. *)

From Stdlib Require Import ZArith NArith List Ascii String Bool Lia.
From stdpp Require Import base list gmap strings.

Set Default Proof Using "Type".

(* ===================================================================== *)
(** ** JavaScript strings                                                 *)
(* ===================================================================== *)

Abbreviation jsstring := (list N).

(** Decoding of a UTF-8 literal into UTF-16 code units (one, two and three
    byte sequences: every literal of the source lies in the basic plane). *)
Fixpoint utf16_of_utf8 (bs : list N) : jsstring :=
  match bs with
  | [] => []
  | b :: r =>
      if (b <? 128)%N then b :: utf16_of_utf8 r
      else if (b <? 224)%N then
        match r with
        | c :: r1 =>
            N.lor (N.shiftl (N.land b 31) 6) (N.land c 63) :: utf16_of_utf8 r1
        | [] => []
        end
      else
        match r with
        | c :: d :: r2 =>
            N.lor (N.shiftl (N.land b 15) 12)
              (N.lor (N.shiftl (N.land c 63) 6) (N.land d 63))
            :: utf16_of_utf8 r2
        | _ => []
        end
  end.

Definition js (s : string) : jsstring :=
  utf16_of_utf8 (map N_of_ascii (list_ascii_of_string s)).

Definition CR : N := 13.
Definition LF : N := 10.
Definition SP : N := 32.

(** The characters matched by [\s], which are also the ones removed by
    [trim] (WhiteSpace and LineTerminator of ECMAScript). *)
Definition isWhiteSpace (c : N) : bool :=
  ((9 <=? c) && (c <=? 13) || (c =? 32) || (c =? 160) || (c =? 5760)
   || (8192 <=? c) && (c <=? 8202) || (c =? 8232) || (c =? 8233)
   || (c =? 8239) || (c =? 8287) || (c =? 12288) || (c =? 65279))%N.

Fixpoint dropWhile (p : N -> bool) (s : jsstring) : jsstring :=
  match s with
  | [] => []
  | c :: r => if p c then dropWhile p r else s
  end.

Fixpoint dropWhileEnd (p : N -> bool) (s : jsstring) : jsstring :=
  match s with
  | [] => []
  | c :: r =>
      match dropWhileEnd p r with
      | [] => if p c then [] else [c]
      | r' => c :: r'
      end
  end.

(** [s.trim()] *)
Definition trim (s : jsstring) : jsstring :=
  dropWhileEnd isWhiteSpace (dropWhile isWhiteSpace s).

(** [s.replace(/(\r\n|\n|\r)/gm, " ")] *)
Fixpoint replaceLineBreaks (s : jsstring) : jsstring :=
  match s with
  | [] => []
  | c :: r =>
      if (c =? CR)%N then
        match r with
        | d :: r1 =>
            if (d =? LF)%N then SP :: replaceLineBreaks r1
            else SP :: replaceLineBreaks r
        | [] => [SP]
        end
      else if (c =? LF)%N then SP :: replaceLineBreaks r
      else c :: replaceLineBreaks r
  end.

(** [s.replace(/\s+/g, " ")]: [inRun] tells that the previous character
    belonged to the whitespace run being replaced. *)
Fixpoint collapseWhitespace (inRun : bool) (s : jsstring) : jsstring :=
  match s with
  | [] => []
  | c :: r =>
      if isWhiteSpace c then
        if inRun then collapseWhitespace true r
        else SP :: collapseWhitespace true r
      else c :: collapseWhitespace false r
  end.

(** [!text] for [text: string | undefined | null] *)
Definition falsyText (text : option jsstring) : bool :=
  match text with
  | None => true
  | Some [] => true
  | Some _ => false
  end.

(** [cleanForJson], the same text in both source files. *)
Definition cleanForJson (text : option jsstring) : jsstring :=
  match text with
  | None => []
  | Some t =>
      if falsyText text then []
      else trim (collapseWhitespace false (replaceLineBreaks t))
  end.

(** Observations on a cleaned string. *)
Definition isLineBreak (c : N) : bool := ((c =? CR) || (c =? LF))%N.

Definition hasLineBreak (s : jsstring) : bool := existsb isLineBreak s.

Fixpoint hasWhitespaceRun (s : jsstring) : bool :=
  match s with
  | c :: r =>
      match r with
      | d :: _ => isWhiteSpace c && isWhiteSpace d || hasWhitespaceRun r
      | [] => false
      end
  | [] => false
  end.

Definition startsWithWhitespace (s : jsstring) : bool :=
  match s with
  | c :: _ => isWhiteSpace c
  | [] => false
  end.

Fixpoint endsWithWhitespace (s : jsstring) : bool :=
  match s with
  | [] => false
  | [c] => isWhiteSpace c
  | _ :: r => endsWithWhitespace r
  end.


(** [a.join(sep)] on an array of strings *)
Fixpoint join (sep : jsstring) (parts : list jsstring) : jsstring :=
  match parts with
  | [] => []
  | [p] => p
  | p :: rest => p ++ sep ++ join sep rest
  end.

(** [s.split(sep)] for a separator of one character *)
Fixpoint split (sep : N) (s : jsstring) : list jsstring :=
  match s with
  | [] => [[]]
  | c :: r =>
      if (c =? sep)%N then [] :: split sep r
      else
        match split sep r with
        | part :: parts => (c :: part) :: parts
        | [] => [[c]]
        end
  end.

Fixpoint startsWith (prefix s : jsstring) : bool :=
  match prefix, s with
  | [], _ => true
  | p :: prefix', c :: s' => (p =? c)%N && startsWith prefix' s'
  | _ :: _, [] => false
  end.

(** [s.includes(needle)] *)
Fixpoint includes (needle s : jsstring) : bool :=
  startsWith needle s
  || match s with
     | [] => false
     | _ :: s' => includes needle s'
     end.

(** [[a, b, ...].filter(Boolean)] on strings: the empty string is falsy. *)
Definition truthy (s : jsstring) : bool :=
  match s with
  | [] => false
  | _ :: _ => true
  end.

Definition filterBoolean (parts : list jsstring) : list jsstring :=
  List.filter truthy parts.

(** The engine's case conversions. *)
Class CaseMapping := {
  toLowerCase : jsstring -> jsstring;
  toUpperCase : jsstring -> jsstring
}.

(** The conversions on ASCII letters, every other code unit kept: what the
    engine computes on strings of ASCII characters. *)
Definition asciiLower (c : N) : N :=
  if ((65 <=? c) && (c <=? 90))%N then (c + 32)%N else c.

Definition asciiUpper (c : N) : N :=
  if ((97 <=? c) && (c <=? 122))%N then (c - 32)%N else c.

Definition asciiCase : CaseMapping :=
  {| toLowerCase := map asciiLower; toUpperCase := map asciiUpper |}.

(* ===================================================================== *)
(** ** Numbers                                                            *)
(* ===================================================================== *)

(** The digit of value [d] in [Number.prototype.toString(radix)]. *)
Definition digitChar (d : Z) : N :=
  if (d <? 10)%Z then Z.to_N (48 + d) else Z.to_N (87 + d).

(** Digits of a non-negative integer, most significant first; [fuel]
    bounds the number of digits. *)
Fixpoint digitsOf (fuel : nat) (radix n : Z) (acc : jsstring) : jsstring :=
  match fuel with
  | O => acc
  | S fuel' =>
      let acc' := digitChar (n mod radix) :: acc in
      if (n / radix =? 0)%Z then acc' else digitsOf fuel' radix (n / radix) acc'
  end.

(** [n.toString(radix)] for an integer [n] *)
Definition toStringRadix (radix n : Z) : jsstring :=
  let digits := digitsOf (S (Z.to_nat (Z.log2 (Z.abs n)))) radix (Z.abs n) [] in
  if (n <? 0)%Z then 45%N :: digits else digits.

(** [`${n}`] for an integer [n]: its digits, which are what the engine
    prints for an integer of absolute value below [2^53] (a greater one it
    prints with the shortest digits that denote the same double, in
    exponent form from [10^21] on). *)
Definition numberToString (n : Z) : jsstring := toStringRadix 10 n.

(** The value of a character as a digit, for radices up to 36. *)
Definition digitValue (c : N) : option Z :=
  if ((48 <=? c) && (c <=? 57))%N then Some (Z.of_N c - 48)%Z
  else if ((97 <=? c) && (c <=? 122))%N then Some (Z.of_N c - 87)%Z
  else if ((65 <=? c) && (c <=? 90))%N then Some (Z.of_N c - 55)%Z
  else None.

Definition isDigitOf (radix : Z) (c : N) : bool :=
  match digitValue c with
  | Some d => (d <? radix)%Z
  | None => false
  end.

Fixpoint takeWhile (p : N -> bool) (s : jsstring) : jsstring :=
  match s with
  | [] => []
  | c :: r => if p c then c :: takeWhile p r else []
  end.

Definition digitsValue (radix : Z) (digits : jsstring) : Z :=
  fold_left (fun acc c => (acc * radix + default 0 (digitValue c))%Z) digits 0%Z.

(** [parseInt(s, radix)] for [radix] 10 or 16: leading white space, a
    sign, for radix 16 a [0x] prefix, then the longest run of digits;
    [None] is [NaN].  The value is exact, where the engine rounds it to a
    double: the two agree below [2^53], and rounding changes neither the
    sign of the value nor its comparison with an integer below [2^53]. *)
Definition parseInt (s : jsstring) (radix : Z) : option Z :=
  let s1 := dropWhile isWhiteSpace s in
  let '(negative, s2) :=
    match s1 with
    | c :: r =>
        if (c =? 45)%N then (true, r)
        else if (c =? 43)%N then (false, r)
        else (false, s1)
    | [] => (false, s1)
    end in
  let s3 :=
    if (radix =? 16)%Z then
      match s2 with
      | z :: x :: r =>
          if ((z =? 48) && ((x =? 120) || (x =? 88)))%N then r else s2
      | _ => s2
      end
    else s2 in
  match takeWhile (isDigitOf radix) s3 with
  | [] => None
  | digits =>
      let v := digitsValue radix digits in
      Some (if negative then (- v)%Z else v)
  end.

(** [ToInt32] *)
Definition toInt32 (z : Z) : Z := ((z + 2 ^ 31) mod 2 ^ 32 - 2 ^ 31)%Z.

(** *** Doubles

    The numbers of the retry wrapper are not negative; they are doubles,
    rounded as IEEE 754 binary64 prescribes. *)

(** A non-negative double: [m * 2^e], or [Infinity]. *)
Inductive Double := Finite (m e : Z) | Infinite.

(** A non-negative Number whose value is an integer, or [Infinity]. *)
Inductive Integral := Int (z : Z) | Infinity.

(** The integer nearest to [num / den], the even one of two that are
    equally near. *)
Definition roundHalfEven (num den : Z) : Z :=
  let q := (num / den)%Z in
  let r := (num mod den)%Z in
  if (2 * r <? den)%Z then q
  else if (den <? 2 * r)%Z then (q + 1)%Z
  else if Z.even q then q else (q + 1)%Z.

(** The integer [l] with [2^l <= num / den < 2^(l+1)], for positive [num]
    and [den]. *)
Definition floorLog2 (num den : Z) : Z :=
  let l := (Z.log2 num - Z.log2 den)%Z in
  if (den * 2 ^ Z.max 0 l <=? num * 2 ^ Z.max 0 (- l))%Z then l else (l - 1)%Z.

(** The Number value for the rational [num / den], [0 <= num] and
    [0 < den]: the nearest double, ties to the even significand.  The
    significand has 53 bits, the exponent of its last bit is at least
    [-1074], and a result of [2^1024] or more is [Infinity]. *)
Definition toDouble (num den : Z) : Double :=
  if (num =? 0)%Z then Finite 0 0
  else
    let e := Z.max (floorLog2 num den - 52) (-1074) in
    let m := roundHalfEven (num * 2 ^ Z.max 0 (- e)) (den * 2 ^ Z.max 0 e) in
    if (2 ^ 1024 <=? m * 2 ^ Z.max 0 e)%Z then Infinite else Finite m e.

(** [Math.ceil(x)] *)
Definition mathCeil (x : Double) : Integral :=
  match x with
  | Finite m e =>
      Int (if (0 <=? e)%Z then m * 2 ^ e else (m + 2 ^ (- e) - 1) / 2 ^ (- e))%Z
  | Infinite => Infinity
  end.

(** [Math.round(x)]: the integer nearest to [x], the greater one of two
    that are equally near. *)
Definition mathRound (x : Double) : Integral :=
  match x with
  | Finite m e =>
      Int (if (0 <=? e)%Z then m * 2 ^ e
           else (2 * m + 2 ^ (- e)) / 2 ^ (- e + 1))%Z
  | Infinite => Infinity
  end.

(** The Number value for a non-negative integer. *)
Definition toNumber (z : Z) : Integral := mathCeil (toDouble z 1).

(** [a * b] and [a + b] for an integral [a] and a non-negative integer
    [b]: the exact result, rounded to a double. *)
Definition timesNumber (a : Integral) (b : Z) : Integral :=
  match a with
  | Int z => toNumber (z * b)
  | Infinity => Infinity
  end.

Definition plusNumber (a : Integral) (b : Z) : Integral :=
  match a with
  | Int z => toNumber (z + b)
  | Infinity => Infinity
  end.

(** [a / b] for an integral [a] and a positive integer [b] *)
Definition overNumber (a : Integral) (b : Z) : Double :=
  match a with
  | Int z => toDouble z b
  | Infinity => Infinite
  end.

(** [`${a}`] for an integral Number, with the digits of
    [numberToString]. *)
Definition integralText (a : Integral) : jsstring :=
  match a with
  | Int z => numberToString z
  | Infinity => js "Infinity"
  end.

(* ===================================================================== *)
(** ** KeyCodec: [verifyKeyOffline] (src/App.tsx)                         *)
(* ===================================================================== *)

Definition APP_SECRET : jsstring := js "SECRET_KEY_BRIDGE_8823_HASH".

(** One round of the loop of [simpleHash]:
    [hash = ((hash << 5) - hash) + char; hash = hash & hash]. *)
Definition simpleHashStep (hash : Z) (char : N) : Z :=
  let hash1 := (toInt32 (Z.shiftl (toInt32 hash) 5) - hash + Z.of_N char)%Z in
  Z.land (toInt32 hash1) (toInt32 hash1).

(** [simpleHash(str)]: [Math.abs(hash).toString(16)] *)
Definition simpleHash (str : jsstring) : jsstring :=
  toStringRadix 16 (Z.abs (fold_left simpleHashStep str 0%Z)).

Record OfflineResult := {
  valid : bool;
  offlineMessage : option jsstring
}.

Definition LIFETIME : jsstring := js "LIFETIME".

(** [simpleHash(expHex + '-' + typeCode + APP_SECRET).toUpperCase()] *)
Definition expectedSig `{CaseMapping} (expHex typeCode : jsstring) : jsstring :=
  toUpperCase (simpleHash (expHex ++ js "-" ++ typeCode ++ APP_SECRET)).

(** [Date.now() > expiresAt], false when [expiresAt] is [NaN] *)
Definition nowAfter (now : Z) (expiresAt : option Z) : bool :=
  match expiresAt with
  | Some t => (now >? t)%Z
  | None => false
  end.

(** [verifyKeyOffline(keyString)] at the instant [now = Date.now()].
    Nothing in the body of the [try] raises, so the [catch] is not taken. *)
Definition verifyKeyOffline `{CaseMapping} (now : Z) (keyString : jsstring)
  : OfflineResult :=
  match split 45 keyString with
  | [prefix; expHex; typeCode; signature] =>
      if negb (bool_decide (prefix = js "SK")) then
        {| valid := false; offlineMessage := Some (js "Sai định dạng.") |}
      else if negb (bool_decide (signature = expectedSig expHex typeCode)) then
        {| valid := false; offlineMessage := Some (js "Key không hợp lệ.") |}
      else if negb (bool_decide (expHex = LIFETIME))
              && nowAfter now (parseInt expHex 16) then
        {| valid := false; offlineMessage := Some (js "Key đã hết hạn.") |}
      else {| valid := true; offlineMessage := None |}
  | _ => {| valid := false; offlineMessage := Some (js "Sai định dạng.") |}
  end.

(* ===================================================================== *)
(** ** LicenseGuard: [AuthGuard] (src/App.tsx)                            *)
(* ===================================================================== *)

Inductive Status := VALID | INVALID | ERROR | NETWORK_ERROR.

Record OnlineResult := {
  status : Status;
  onlineMessage : option jsstring
}.

(** What [response.json()] yields: it rejects, or the parsed body is
    [null] ([Unreadable]: both raise inside the [try]); otherwise the
    fields [valid] (when it is a boolean) and [message] of the body, both
    absent when the body is a number, a string or a boolean. *)
Inductive ResponseBody :=
  | Unreadable
  | Payload (validField : option bool) (messageField : option jsstring).

(** What [fetch] yields within the 8 seconds of the abort timer. *)
Inductive FetchOutcome :=
  | FetchRejected
  | FetchResponse (httpStatus : Z) (body : ResponseBody).

(** [response.ok] *)
Definition responseOk (httpStatus : Z) : bool :=
  ((200 <=? httpStatus) && (httpStatus <=? 299))%Z.

(** [verifyKeyOnline(key)], given the outcome of its [fetch] *)
Definition verifyKeyOnline (outcome : FetchOutcome) : OnlineResult :=
  match outcome with
  | FetchRejected => {| status := NETWORK_ERROR; onlineMessage := None |}
  | FetchResponse httpStatus body =>
      if negb (responseOk httpStatus) then
        if ((httpStatus =? 403) || (httpStatus =? 404))%Z then
          {| status := INVALID;
             onlineMessage :=
               Some (js "Key không tồn tại, đã bị xóa hoặc hết hạn.") |}
        else {| status := ERROR; onlineMessage := Some (js "Lỗi Server") |}
      else
        match body with
        | Unreadable => {| status := NETWORK_ERROR; onlineMessage := None |}
        | Payload (Some false) messageField =>
            {| status := INVALID;
               onlineMessage :=
                 Some (if falsyText messageField then js "Key không hợp lệ"
                       else default [] messageField) |}
        | Payload _ _ => {| status := VALID; onlineMessage := None |}
        end
  end.

(** The calls and notices a run of the guard makes, oldest first. *)
Inductive GuardEvent :=
  | VerifyOnline (key : jsstring)
  | VerifyOffline (key : jsstring)
  | Alert (notice : jsstring).

(** The component state of [AuthGuard] together with the browser's
    [localStorage] and the log of verifier calls. *)
Record Guard := {
  localStorage : gmap string jsstring;
  isUnlocked : bool;
  isLoading : bool;
  keyInput : jsstring;
  error : jsstring;
  events : list GuardEvent
}.

Definition LICENSE_SLOT : string := "my_app_license_online".
Definition LEGACY_SLOT : string := "my_app_license".

Definition setIsUnlocked (b : bool) (g : Guard) : Guard :=
  {| localStorage := localStorage g; isUnlocked := b; isLoading := isLoading g;
     keyInput := keyInput g; error := error g; events := events g |}.

Definition setIsLoading (b : bool) (g : Guard) : Guard :=
  {| localStorage := localStorage g; isUnlocked := isUnlocked g; isLoading := b;
     keyInput := keyInput g; error := error g; events := events g |}.

Definition setKeyInput (s : jsstring) (g : Guard) : Guard :=
  {| localStorage := localStorage g; isUnlocked := isUnlocked g;
     isLoading := isLoading g; keyInput := s; error := error g;
     events := events g |}.

Definition setError (s : jsstring) (g : Guard) : Guard :=
  {| localStorage := localStorage g; isUnlocked := isUnlocked g;
     isLoading := isLoading g; keyInput := keyInput g; error := s;
     events := events g |}.

Definition setItem (slot : string) (v : jsstring) (g : Guard) : Guard :=
  {| localStorage := <[slot := v]> (localStorage g); isUnlocked := isUnlocked g;
     isLoading := isLoading g; keyInput := keyInput g; error := error g;
     events := events g |}.

Definition removeItem (slot : string) (g : Guard) : Guard :=
  {| localStorage := delete slot (localStorage g); isUnlocked := isUnlocked g;
     isLoading := isLoading g; keyInput := keyInput g; error := error g;
     events := events g |}.

Definition record (e : GuardEvent) (g : Guard) : Guard :=
  {| localStorage := localStorage g; isUnlocked := isUnlocked g;
     isLoading := isLoading g; keyInput := keyInput g; error := error g;
     events := events g ++ [e] |}.

(** The state in which [AuthGuard] is mounted. *)
Definition mount (storage : gmap string jsstring) : Guard :=
  {| localStorage := storage; isUnlocked := false; isLoading := true;
     keyInput := []; error := []; events := [] |}.

Section LicenseGuard.
Context `{CaseMapping}.
(** The license server: the outcome of the [fetch] for a key. *)
Variable server : jsstring -> FetchOutcome.
(** [Date.now()] *)
Variable now : Z.

(** [handleLogout()] *)
Definition handleLogout (g : Guard) : Guard :=
  setError [] (setKeyInput [] (setIsUnlocked false
    (removeItem LEGACY_SLOT (removeItem LICENSE_SLOT g)))).

(** [checkSavedKey()], run once when the guard is mounted *)
Definition checkSavedKey (g : Guard) : Guard :=
  let g1 :=
    match localStorage g !! LICENSE_SLOT with
    | Some (c :: k) =>
        let savedKey := c :: k in
        let onlineRes := verifyKeyOnline (server savedKey) in
        let g0 := record (VerifyOnline savedKey) g in
        match status onlineRes with
        | VALID => setIsUnlocked true g0
        | INVALID => removeItem LICENSE_SLOT g0
        | _ =>
            let offlineRes := verifyKeyOffline now savedKey in
            let g00 := record (VerifyOffline savedKey) g0 in
            if valid offlineRes then setIsUnlocked true g00 else g00
        end
    | _ => g
    end in
  setIsLoading false g1.

(** [handleUnlock()] *)
Definition handleUnlock (g : Guard) : Guard :=
  let inputClean := toUpperCase (trim (keyInput g)) in
  match inputClean with
  | [] => g
  | _ :: _ =>
      let g0 := setError [] (setIsLoading true g) in
      let onlineRes := verifyKeyOnline (server inputClean) in
      let g1 := record (VerifyOnline inputClean) g0 in
      let g2 :=
        match status onlineRes with
        | VALID => setIsUnlocked true (setItem LICENSE_SLOT inputClean g1)
        | INVALID => setError (default [] (onlineMessage onlineRes)) g1
        | _ =>
            let offlineRes := verifyKeyOffline now inputClean in
            let g10 := record (VerifyOffline inputClean) g1 in
            if valid offlineRes then
              setIsUnlocked true (setItem LICENSE_SLOT inputClean g10)
            else setError (default [] (offlineMessage offlineRes)) g10
        end in
      setIsLoading false g2
  end.

(** [checkExpiryNow()], the body of the 60 second sweep that runs while
    the guard is unlocked *)
Definition checkExpiryNow (g : Guard) : Guard :=
  match localStorage g !! LICENSE_SLOT with
  | Some (c :: k) =>
      match split 45 (c :: k) with
      | _ :: expHex :: _ =>
          if negb (bool_decide (expHex = LIFETIME))
             && nowAfter now (parseInt expHex 16)
          then
            handleLogout
              (record (Alert (js "Thời hạn sử dụng Key đã kết thúc. Vui lòng liên hệ Admin để gia hạn.")) g)
          else g
      | _ => g
      end
  | _ => g
  end.

Definition sweep (g : Guard) : Guard :=
  if isUnlocked g then checkExpiryNow g else g.
End LicenseGuard.


(* ===================================================================== *)
(** ** SceneNormalizer                                                    *)
(* ===================================================================== *)

(** The raw scene items of a model response, in the shape of the
    REQUIRED JSON STRUCTURE of the prompts.  [None] is a field that is
    absent or [null]. *)
Module Raw.
Record Time := {
  start : option Z;
  end_ : option Z
}.

(** [ambient_sound] is an array of strings, or else a single string. *)
Inductive Ambient :=
  | Sounds (items : list (option jsstring))
  | Sound (text : jsstring).

Record Environment := {
  location : option jsstring;
  weather : option jsstring;
  ambient_sound : option Ambient
}.

Record Actions := {
  body_movement : option jsstring
}.

Record Character := {
  name : option jsstring;
  appearance : option jsstring;
  outfit : option jsstring;
  emotion : option jsstring;
  actions : option Actions
}.

Record Camera := {
  shot_type : option jsstring;
  movement : option jsstring
}.

Record VisualStyle := {
  style : option jsstring;
  lighting : option jsstring
}.

Record Dialogue := {
  line : option jsstring;
  language : option jsstring
}.

Record Scene := {
  scene : option Z;
  time : option Time;
  continuity_reference : option jsstring;
  environment : option Environment;
  characters : option (list Character);
  camera : option Camera;
  visual_style : option VisualStyle;
  dialogue : option Dialogue;
  wishk_prompt : option jsstring
}.

(** [{ ...s, scene: n }] *)
Definition withScene (n : Z) (s : Scene) : Scene :=
  {| scene := Some n; time := time s;
     continuity_reference := continuity_reference s;
     environment := environment s; characters := characters s;
     camera := camera s; visual_style := visual_style s;
     dialogue := dialogue s; wishk_prompt := wishk_prompt s |}.
End Raw.

(** Modelled from the spec: the type [Scene] of [../types], a module that
    is not among the sources.  A scene has a scene number, a description
    in human text, a canonical JSON prompt and a generation prompt text;
    the field names are the ones [mapJsonToScenes] writes. *)
Record Scene := {
  scene_number : Z;
  script_description : jsstring;
  veo_prompt : jsstring;
  wishk_prompt : jsstring
}.

(** Modelled from the spec: the type [Script] of [../types], a story
    summary and the ordered sequence of scenes, under the field names
    [generateScript] writes. *)
Record Script := {
  story_summary : jsstring;
  scenes : list Scene
}.

(** [{ ...s, scene_number: n }] *)
Definition withSceneNumber (n : Z) (s : Scene) : Scene :=
  {| scene_number := n; script_description := script_description s;
     veo_prompt := veo_prompt s; wishk_prompt := wishk_prompt s |}.

(** [o?.f] *)
Definition opt {A B} (o : option A) (f : A -> option B) : option B :=
  match o with
  | Some a => f a
  | None => None
  end.

(** The values that are dumped by [JSON.stringify]. *)
#[warnings="-register-all"]
Inductive json :=
  | JNum (n : Z)
  | JStr (s : jsstring)
  | JArr (items : list json)
  | JObj (fields : list (string * json)).

Definition hex4 (c : N) : jsstring :=
  let d := toStringRadix 16 (Z.of_N c) in
  repeat 48%N (4 - length d) ++ d.

Definition isHighSurrogate (c : N) : bool := ((55296 <=? c) && (c <=? 56319))%N.
Definition isLowSurrogate (c : N) : bool := ((56320 <=? c) && (c <=? 57343))%N.

(** The escapes of [QuoteJSONString]. *)
Fixpoint escapeJson (s : jsstring) : jsstring :=
  match s with
  | [] => []
  | c :: r =>
      if (c =? 8)%N then js "\b" ++ escapeJson r
      else if (c =? 9)%N then js "\t" ++ escapeJson r
      else if (c =? 10)%N then js "\n" ++ escapeJson r
      else if (c =? 12)%N then js "\f" ++ escapeJson r
      else if (c =? 13)%N then js "\r" ++ escapeJson r
      else if (c =? 34)%N then js "\" ++ [34%N] ++ escapeJson r
      else if (c =? 92)%N then js "\\" ++ escapeJson r
      else if (c <? 32)%N then js "\u" ++ hex4 c ++ escapeJson r
      else if isHighSurrogate c then
        match r with
        | d :: r1 =>
            if isLowSurrogate d then c :: d :: escapeJson r1
            else js "\u" ++ hex4 c ++ escapeJson r
        | [] => js "\u" ++ hex4 c
        end
      else if isLowSurrogate c then js "\u" ++ hex4 c ++ escapeJson r
      else c :: escapeJson r
  end.

Definition quoteJson (s : jsstring) : jsstring := [34%N] ++ escapeJson s ++ [34%N].

(** [JSON.stringify(value)] *)
Fixpoint stringify (value : json) : jsstring :=
  match value with
  | JNum n => numberToString n
  | JStr s => quoteJson s
  | JArr items => js "[" ++ join (js ",") (map stringify items) ++ js "]"
  | JObj fields =>
      js "{"
      ++ join (js ",")
           (map (fun '(k, v) => quoteJson (js k) ++ js ":" ++ stringify v) fields)
      ++ js "}"
  end.

(** The none-sentinels of [cleanAttribute]. *)
Definition noneSentinels : list jsstring :=
  [js "không có"; js "none"; js "n/a"; js "null"; []; js "unknown"].

(** The class [[,.\s]] *)
Definition isPunctOrSpace (c : N) : bool :=
  ((c =? 44) || (c =? 46))%N || isWhiteSpace c.

(** [t.replace(/^[,.\s]+|[,.\s]+$/g, "")] *)
Definition stripPunctuation (t : jsstring) : jsstring :=
  dropWhileEnd isPunctOrSpace (dropWhile isPunctOrSpace t).

(** [cleanAttribute], the same text in both source files. *)
Definition cleanAttribute `{CaseMapping} (text : option jsstring) : jsstring :=
  match text with
  | None => []
  | Some text0 =>
      if falsyText text then []
      else
        let t := trim text0 in
        if bool_decide (toLowerCase t ∈ noneSentinels) then []
        else
          let t := stripPunctuation t in
          let t := replaceLineBreaks t in
          trim t
  end.

(** The parts of [mapJsonToScenes] that are the same text in both source
    files.  [index] is the position of the item in the mapped array. *)
Section SceneParts.
Context `{CaseMapping}.

(** [item.scene || index + 1] *)
Definition sceneOr (item : Raw.Scene) (index : nat) : Z :=
  match Raw.scene item with
  | Some n => if (n =? 0)%Z then (Z.of_nat index + 1)%Z else n
  | None => (Z.of_nat index + 1)%Z
  end.

Definition timeLine (item : Raw.Scene) : jsstring :=
  let timeStart := default 0%Z (opt (Raw.time item) Raw.start) in
  let timeEnd := default 5%Z (opt (Raw.time item) Raw.end_) in
  js "Thời lượng: " ++ numberToString timeStart ++ js "s - "
  ++ numberToString timeEnd ++ js "s".

Definition sceneLine (item : Raw.Scene) (index : nat) : jsstring :=
  js "Cảnh " ++ numberToString (sceneOr item index) ++ js " ("
  ++ timeLine item ++ js ")".

Definition continuity (item : Raw.Scene) : jsstring :=
  cleanAttribute (Raw.continuity_reference item).

Definition sounds (item : Raw.Scene) : jsstring :=
  match opt (Raw.environment item) Raw.ambient_sound with
  | Some (Raw.Sounds items) => join (js ", ") (map cleanAttribute items)
  | Some (Raw.Sound text) => cleanAttribute (Some text)
  | None => cleanAttribute None
  end.

Definition envLine (item : Raw.Scene) : jsstring :=
  let location := cleanAttribute (opt (Raw.environment item) Raw.location) in
  let weather := cleanAttribute (opt (Raw.environment item) Raw.weather) in
  let sounds := sounds item in
  let envParts :=
    (if truthy location then [js "Địa điểm: " ++ location] else [])
    ++ (if truthy weather then [js "Thời tiết: " ++ weather] else [])
    ++ (if truthy sounds then [js "Âm thanh: " ++ sounds] else []) in
  join (js " | ") envParts.

Definition charDesc (c : Raw.Character) : jsstring :=
  let name := cleanAttribute (Raw.name c) in
  let app := cleanAttribute (Raw.appearance c) in
  let outfit := cleanAttribute (Raw.outfit c) in
  let emotion := cleanAttribute (Raw.emotion c) in
  let action := cleanAttribute (opt (Raw.actions c) Raw.body_movement) in
  let desc := name in
  let desc :=
    if truthy app || truthy outfit
    then desc ++ js " [" ++ join (js ", ") (filterBoolean [app; outfit]) ++ js "]"
    else desc in
  let desc :=
    if truthy emotion then desc ++ js " (Cảm xúc: " ++ emotion ++ js ")"
    else desc in
  let desc :=
    if truthy action then desc ++ js " -> Hành động: " ++ action else desc in
  desc.

Definition charLine (item : Raw.Scene) : jsstring :=
  match Raw.characters item with
  | Some characters =>
      let chars := join (js "; ") (map charDesc characters) in
      if truthy chars then js "Nhân vật: " ++ chars else []
  | None => []
  end.

Definition cameraLine (item : Raw.Scene) : jsstring :=
  let shotType := cleanAttribute (opt (Raw.camera item) Raw.shot_type) in
  let camMove := cleanAttribute (opt (Raw.camera item) Raw.movement) in
  if truthy shotType || truthy camMove
  then js "Camera: " ++ shotType ++ js " | " ++ camMove
  else [].

Definition styleLine (item : Raw.Scene) : jsstring :=
  let styleName := cleanAttribute (opt (Raw.visual_style item) Raw.style) in
  let lighting := cleanAttribute (opt (Raw.visual_style item) Raw.lighting) in
  if truthy styleName || truthy lighting
  then js "Visual: " ++ styleName ++ js " | Light: " ++ lighting
  else [].

Definition NO_DIALOGUE : jsstring := js "Thoại: Không có".

Definition dialogueLine (item : Raw.Scene) : jsstring :=
  let line := cleanAttribute (opt (Raw.dialogue item) Raw.line) in
  let lang := cleanAttribute (opt (Raw.dialogue item) Raw.language) in
  if truthy line
  then js "Thoại (" ++ lang ++ js "): " ++ [34%N] ++ line ++ [34%N]
  else NO_DIALOGUE.

(** [item.time || { start: 0, end: 5 }] *)
Definition timeJson (item : Raw.Scene) : json :=
  match Raw.time item with
  | Some t =>
      JObj (match Raw.start t with Some v => [("start", JNum v)] | None => [] end
            ++ match Raw.end_ t with Some v => [("end", JNum v)] | None => [] end)
  | None => JObj [("start", JNum 0); ("end", JNum 5)]
  end.

Definition characterJson (c : Raw.Character) : json :=
  JObj [("name", JStr (cleanForJson (Raw.name c)));
        ("appearance", JStr (cleanForJson (Raw.appearance c)));
        ("outfit", JStr (cleanForJson (Raw.outfit c)));
        ("emotion", JStr (cleanForJson (Raw.emotion c)));
        ("actions",
         JObj [("body_movement",
                JStr (cleanForJson (opt (Raw.actions c) Raw.body_movement)))])].

Definition jsonPrompt (item : Raw.Scene) (index : nat) : json :=
  JObj [("scene", JNum (sceneOr item index));
        ("time", timeJson item);
        ("continuity_reference",
         JStr (cleanForJson (Raw.continuity_reference item)));
        ("environment",
         JObj [("location",
                JStr (cleanForJson (opt (Raw.environment item) Raw.location)));
               ("weather",
                JStr (cleanForJson (opt (Raw.environment item) Raw.weather)));
               ("ambient_sound",
                match opt (Raw.environment item) Raw.ambient_sound with
                | Some (Raw.Sounds items) =>
                    JArr (map (fun t => JStr (cleanForJson t)) items)
                | _ => JArr []
                end)]);
        ("characters",
         JArr (map characterJson (default [] (Raw.characters item))));
        ("camera",
         JObj [("shot_type",
                JStr (cleanForJson (opt (Raw.camera item) Raw.shot_type)));
               ("movement",
                JStr (cleanForJson (opt (Raw.camera item) Raw.movement)))]);
        ("visual_style",
         JObj [("style",
                JStr (cleanForJson (opt (Raw.visual_style item) Raw.style)));
               ("lighting",
                JStr (cleanForJson (opt (Raw.visual_style item) Raw.lighting)))]);
        ("dialogue",
         JObj [("line", JStr (cleanForJson (opt (Raw.dialogue item) Raw.line)));
               ("language",
                JStr (cleanForJson (opt (Raw.dialogue item) Raw.language)))])].

(** [cleanForJson(item.wishk_prompt || "")] *)
Definition rawWishk (item : Raw.Scene) : jsstring :=
  cleanForJson (Some (default [] (Raw.wishk_prompt item))).

(** The scene built from an item once its continuity segment is known;
    the middle five segments are the ones that may be empty. *)
Definition segments (continuityLine : jsstring) (item : Raw.Scene) (index : nat)
  : list jsstring :=
  [sceneLine item index; continuityLine; envLine item; charLine item;
   cameraLine item; styleLine item; dialogueLine item].

Definition buildScene (continuityLine : jsstring) (item : Raw.Scene) (index : nat)
  : Scene :=
  let description :=
    join (js " | ") (filterBoolean (segments continuityLine item index)) in
  {| scene_number := sceneOr item index;
     script_description := description;
     veo_prompt := stringify (jsonPrompt item index);
     wishk_prompt := rawWishk item |}.
End SceneParts.

(* ===================================================================== *)
(** ** The generation service as seen by the orchestrator                 *)
(* ===================================================================== *)

(** A value caught by a [catch (error: any)]: its [message], what
    [JSON.stringify] prints for it and, when it carries a [response], what
    [JSON.stringify] prints for that. *)
Record JsError := {
  message : option jsstring;
  stringified : jsstring;
  response : option jsstring
}.

(** [new Error(msg)]: no enumerable property, no [response]. *)
Definition newError (msg : jsstring) : JsError :=
  {| message := Some msg; stringified := js "{}"; response := None |}.

(** [`${error.message}`] *)
Definition messageText (error : JsError) : jsstring :=
  default (js "undefined") (message error).

(** [typeof options.promptCount]: absent, [NaN], a number or a string. *)
Inductive PromptCount :=
  | CountMissing
  | CountNaN
  | CountNumber (n : Z)
  | CountText (text : jsstring).

(** Modelled from the spec: the type [VideoGenerationOptions] of
    [../types], with idea, style, prompt count, dialogue language and an
    optional prompt type, under the field names the services read.  The
    prompt count is kept as the services test it, see [PromptCount]. *)
Record VideoGenerationOptions := {
  idea : jsstring;
  videoStyle : jsstring;
  promptCount : PromptCount;
  dialogueLanguage : jsstring;
  promptType : option jsstring
}.

(** A call of [ai.models.generateContent], named by the values that are
    interpolated into its prompt. *)
Inductive Request :=
  | BatchPrompt (idea videoStyle dialogueLanguage : jsstring)
      (startIndex count : Z) (previousContext storySummary : jsstring)
  | ExtendPrompt (scene_number : Z) (script_description extensionIdea : jsstring)
      (count : Z) (videoStyle : jsstring)
  | ScriptPrompt (options : VideoGenerationOptions).

(** What a call yields: the promise rejects; [response.text] is empty;
    [JSON.parse] raises; or the parsed body with its [scenes] and
    [story_summary], each absent or present. *)
Inductive AiResponse :=
  | Rejected (error : JsError)
  | NoText
  | Malformed (error : JsError)
  | Parsed (scenes : option (list Raw.Scene)) (story_summary : option jsstring).

(** The generative model: its answer to the [n]-th request of a run. *)
Definition AiService := nat -> Request -> AiResponse.

Inductive Event :=
  | Progress (msg : jsstring)
  | Sent (request : Request)
  | Wait (ms : Integral).

Record World := {
  requests : nat;
  trace : list Event
}.

Definition start : World := {| requests := 0; trace := [] |}.

Inductive Outcome (A : Type) :=
  | Returned (a : A)
  | Thrown (error : JsError).
Arguments Returned {A} a.
Arguments Thrown {A} error.

(** An [async] function: it reads and extends the world and returns or
    throws. *)
Definition Async (A : Type) : Type := World -> Outcome A * World.

Definition ret {A} (a : A) : Async A := fun w => (Returned a, w).

Definition throw {A} (error : JsError) : Async A := fun w => (Thrown error, w).

Definition bind {A B} (m : Async A) (k : A -> Async B) : Async B :=
  fun w =>
    match m w with
    | (Returned a, w1) => k a w1
    | (Thrown error, w1) => (Thrown error, w1)
    end.

(** [try { m } catch (error) { handler }] *)
Definition tryCatch {A} (m : Async A) (handler : JsError -> Async A) : Async A :=
  fun w =>
    match m w with
    | (Returned a, w1) => (Returned a, w1)
    | (Thrown error, w1) => handler error w1
    end.

Declare Scope async_scope.
Delimit Scope async_scope with async.
Notation "'let*' x ':=' m 'in' k" := (bind m (fun x => k))
  (at level 10, x name, m at level 100, k at level 200) : async_scope.
Notation "m ';;' k" := (bind m (fun _ => k))
  (at level 100, k at level 200, right associativity) : async_scope.

Definition emit (e : Event) : Async unit :=
  fun w => (Returned tt, {| requests := requests w; trace := trace w ++ [e] |}).

(** [onProgress(msg)] *)
Definition onProgress (msg : jsstring) : Async unit := emit (Progress msg).

(** [await delay(ms)] *)
Definition delay (ms : Integral) : Async unit := emit (Wait ms).

(** [createAiClient(apiKey)] *)
Definition createAiClient (apiKey : jsstring) : Async unit :=
  if truthy apiKey then ret tt
  else throw (newError (js "Vui lòng nhập Google AI Studio API Key.")).

(** [await ai.models.generateContent(...)] followed by the test of
    [response.text] with its message and by [JSON.parse(response.text)] *)
Definition generateContent (service : AiService) (noText : jsstring)
    (request : Request)
  : Async (option (list Raw.Scene) * option jsstring) :=
  fun w =>
    let w1 := {| requests := S (requests w); trace := trace w ++ [Sent request] |} in
    match service (requests w) request with
    | Rejected error => (Thrown error, w1)
    | NoText => (Thrown (newError noText), w1)
    | Malformed error => (Thrown error, w1)
    | Parsed scenes story_summary => (Returned (scenes, story_summary), w1)
    end.

(** The numbers of scenes asked for by the batch requests of a trace. *)
Definition requestedCount (e : Event) : option Z :=
  match e with
  | Sent (BatchPrompt _ _ _ _ count _ _) => Some count
  | _ => None
  end.

Definition requestedCounts (t : list Event) : list Z := omap requestedCount t.

Definition emptyScene : Raw.Scene :=
  {| Raw.scene := None; Raw.time := None; Raw.continuity_reference := None;
     Raw.environment := None; Raw.characters := None; Raw.camera := None;
     Raw.visual_style := None; Raw.dialogue := None; Raw.wishk_prompt := None |}.

(** [mapped.map((s, i) => ({ ...s, scene_number: startNum + i }))] *)
Definition renumber (startNum : Z) (mapped : list Scene) : list Scene :=
  imap (fun i s => withSceneNumber (startNum + Z.of_nat i) s) mapped.

Local Open Scope async_scope.

(* ===================================================================== *)
(** ** src/services/geminiService.ts                                      *)
(* ===================================================================== *)

Module Service.
Section Service.
Context `{CaseMapping}.
Variable service : AiService.

Definition MISSING : jsstring := js "Continuity: [Missing]".

Definition continuityLine (item : Raw.Scene) (index : nat) : jsstring :=
  if truthy (continuity item) then js "Continuity: " ++ continuity item
  else if (0 <? index)%nat then MISSING else [].

(** [mapJsonToScenes(rawScenes)] *)
Definition mapJsonToScenes (rawScenes : list Raw.Scene) : list Scene :=
  imap (fun index item => buildScene (continuityLine item index) item index)
    rawScenes.

(** [generateScript(options, apiKey, onProgress)]: one request, the
    scenes keep the numbers the model reports. *)
Definition generateScript (options : VideoGenerationOptions) (apiKey : jsstring)
  : Async Script :=
  createAiClient apiKey ;;
  onProgress (js "Đang phân tích ý tưởng và áp dụng quy tắc JSON nghiêm ngặt...") ;;
  onProgress (js "Đang tạo kịch bản frame-by-frame...") ;;
  tryCatch
    (let* body :=
       generateContent service (js "No response from AI") (ScriptPrompt options) in
     match fst body with
     | None => throw (newError (js "Invalid JSON format received"))
     | Some rawScenes =>
         ret {| story_summary := default [] (snd body);
                scenes := mapJsonToScenes rawScenes |}
     end)
    (fun error =>
       throw (newError (js "Failed to generate script: " ++ messageText error))).

(** [extendScript(lastScene, extensionIdea, count, originalOptions, apiKey)] *)
Definition extendScript (lastScene : Scene) (extensionIdea : jsstring)
    (count : Z) (originalOptions : VideoGenerationOptions) (apiKey : jsstring)
  : Async (list Scene) :=
  createAiClient apiKey ;;
  tryCatch
    (let* body :=
       generateContent service (js "No response")
         (ExtendPrompt (scene_number lastScene) (script_description lastScene)
            extensionIdea count (videoStyle originalOptions)) in
     let startNum := (scene_number lastScene + 1)%Z in
     let mapped := mapJsonToScenes (default [] (fst body)) in
     ret (renumber startNum mapped))
    (fun error => throw (newError (js "Extension failed: " ++ messageText error))).
End Service.
End Service.

(* ===================================================================== *)
(** ** RetryScheduler: the wait policy of [generateBatchWithRetry]        *)
(* ===================================================================== *)

Definition MAX_RETRIES : Z := 10.

(** [`${errAny.message || ""} ${JSON.stringify(errAny)} ${errorDetails}`] *)
Definition errorString (error : JsError) : jsstring :=
  default [] (message error) ++ js " " ++ stringified error ++ js " "
  ++ default [] (response error).

Definition isQuota (errorString : jsstring) : bool :=
  includes (js "429") errorString || includes (js "quota") errorString
  || includes (js "RESOURCE_EXHAUSTED") errorString.

Definition isOverloaded (errorString : jsstring) : bool :=
  includes (js "503") errorString || includes (js "overloaded") errorString.

Definition isDecimalDigit (c : N) : bool := ((48 <=? c) && (c <=? 57))%N.

(** The rest of [s] after [prefix], letters compared without case as the
    flag [i] does for a pattern of ASCII letters. *)
Fixpoint afterIgnoreCase (prefix s : jsstring) : option jsstring :=
  match prefix, s with
  | [], _ => Some s
  | p :: prefix', c :: s' =>
      if (asciiLower p =? asciiLower c)%N then afterIgnoreCase prefix' s' else None
  | _ :: _, [] => None
  end.

(** A match of [/retry in (\d+(\.\d+)?)s/i] that starts at the head of
    [s]: the digits before and after the point of group 1. *)
Definition retryAdviceAt (s : jsstring) : option (jsstring * jsstring) :=
  match afterIgnoreCase (js "retry in ") s with
  | None => None
  | Some rest =>
      match takeWhile isDecimalDigit rest, dropWhile isDecimalDigit rest with
      | [], _ => None
      | whole, c :: rest1 =>
          if (c =? 46)%N then
            match takeWhile isDecimalDigit rest1, dropWhile isDecimalDigit rest1 with
            | [], _ => None
            | fraction, c1 :: _ =>
                if (asciiLower c1 =? 115)%N then Some (whole, fraction) else None
            | _, [] => None
            end
          else if (asciiLower c =? 115)%N then Some (whole, []) else None
      | _, [] => None
      end
  end.

(** [errorString.match(/retry in (\d+(\.\d+)?)s/i)]: the leftmost match *)
Fixpoint retryAdvice (s : jsstring) : option (jsstring * jsstring) :=
  match retryAdviceAt s with
  | Some m => Some m
  | None =>
      match s with
      | [] => None
      | _ :: s' => retryAdvice s'
      end
  end.

(** [parseFloat(match[1])] for the decimal [whole.fraction] of group 1:
    the Number value for the decimal.  (For a decimal of more than 20
    significant digits the standard also lets an engine round the decimal
    to 20 digits first; the engines round the decimal itself.) *)
Definition parseFloat (m : jsstring * jsstring) : Double :=
  toDouble (digitsValue 10 (fst m ++ snd m)) (10 ^ Z.of_nat (length (snd m))).

(** What the [catch] of [generateBatchWithRetry] decides once [attempt]
    has been incremented. *)
Inductive Decision :=
  | RetryAfter (waitTime : Integral) (notice : jsstring)
  | Rethrow.

Definition decide_retry (attempt : Z) (error : JsError) : Decision :=
  let errorString := errorString error in
  let isQuota := isQuota errorString in
  let isOverloaded := isOverloaded errorString in
  if (isQuota || isOverloaded) && (attempt <? MAX_RETRIES)%Z then
    match retryAdvice errorString with
    | Some m =>
        let googleWaitTime := parseFloat m in
        let waitTime :=
          plusNumber (timesNumber (mathCeil googleWaitTime) 1000) 3000 in
        RetryAfter waitTime
          (js "Quota API đã đầy. Google yêu cầu chờ "
           ++ integralText (mathRound googleWaitTime)
           ++ js "s. Hệ thống sẽ tự động thử lại sau "
           ++ integralText (mathRound (overNumber waitTime 1000)) ++ js "s...")
    | None =>
        if isQuota then
          let waitTime := (20000 * attempt)%Z in
          RetryAfter (Int waitTime)
            (js "Đã chạm giới hạn Quota. Đang tạm dừng "
             ++ numberToString (waitTime / 1000)
             ++ js "s để hồi phục... (Lần " ++ numberToString attempt ++ js ")")
        else
          let waitTime := (5000 * 2 ^ (attempt - 1))%Z in
          RetryAfter (Int waitTime)
            (js "Server Google đang bận (503). Thử lại sau "
             ++ numberToString (waitTime / 1000) ++ js "s...")
    end
  else Rethrow.

Definition TERMINAL : jsstring :=
  js "Không thể kết nối sau nhiều lần thử. Vui lòng kiểm tra Quota tài khoản Google của bạn.".

(* ===================================================================== *)
(** ** The generation service bundled in src/App.tsx                      *)
(* ===================================================================== *)

(** [typeof options.promptCount === 'string' ? parseInt(options.promptCount, 10)
     : options.promptCount], [None] for [NaN] and [undefined] *)
Definition countOf (options : VideoGenerationOptions) : option Z :=
  match promptCount options with
  | CountText text => parseInt text 10
  | CountNumber n => Some n
  | CountNaN => None
  | CountMissing => None
  end.

(** [if (isNaN(targetCount) || targetCount <= 0) targetCount = 5] *)
Definition targetCountOf (options : VideoGenerationOptions) : Z :=
  match countOf options with
  | Some targetCount => if (targetCount <=? 0)%Z then 5%Z else targetCount
  | None => 5%Z
  end.

(** [for (let i = 0; i < n; i++) body], the loop variables threaded
    through the rounds *)
Fixpoint forEach {S} (body : S -> Z -> Async S) (range : list Z) (st : S) : Async S :=
  match range with
  | [] => ret st
  | i :: rest => let* st1 := body st i in forEach body rest st1
  end.

Module App.
Record BatchResult := {
  rawScenes : list Raw.Scene;
  summary : jsstring
}.

(** The variables of [generateScript] that change from batch to batch. *)
Record Batches := {
  allRawScenes : list Raw.Scene;
  storySummary : jsstring;
  previousContext : jsstring
}.

Definition BATCH_SIZE : Z := 10.

(** [Math.ceil(targetCount / BATCH_SIZE)] *)
Definition totalBatchesOf (targetCount : Z) : Z :=
  ((targetCount + BATCH_SIZE - 1) / BATCH_SIZE)%Z.

(** [result.scenes.map((s, idx) => ({ ...s, scene: startIndex + idx }))] *)
Definition correct (startIndex : Z) (scenes : list Raw.Scene) : list Raw.Scene :=
  imap (fun idx s => Raw.withScene (startIndex + Z.of_nat idx) s) scenes.

(** The context for the next batch, read off the last corrected scene. *)
Definition contextOf (lastScene : Raw.Scene) : jsstring :=
  let charAction :=
    default []
      (opt (opt (opt (Raw.characters lastScene) head) Raw.actions)
         Raw.body_movement) in
  let location := default [] (opt (Raw.environment lastScene) Raw.location) in
  js "Scene " ++ from_option numberToString (js "undefined") (Raw.scene lastScene)
  ++ js " ended at " ++ location ++ js ". Action: " ++ charAction.

Section App.
Context `{CaseMapping}.
Variable service : AiService.

Definition continuityLine (item : Raw.Scene) : jsstring :=
  if truthy (continuity item) then js "Continuity: " ++ continuity item
  else [].

(** [mapJsonToScenes(rawScenes)] *)
Definition mapJsonToScenes (rawScenes : list Raw.Scene) : list Scene :=
  imap (fun index item => buildScene (continuityLine item) item index)
    rawScenes.

(** [generateBatch(ai, options, startIndex, count, previousContext,
    storySummary)] *)
Definition generateBatch (options : VideoGenerationOptions)
    (startIndex count : Z) (previousContext storySummary : jsstring)
  : Async BatchResult :=
  let* json :=
    generateContent service (js "No response from AI")
      (BatchPrompt (idea options) (videoStyle options)
         (dialogueLanguage options) startIndex count previousContext
         storySummary) in
  ret {| rawScenes := default [] (fst json); summary := default [] (snd json) |}.

(** The loop [while (attempt < MAX_RETRIES)] of [generateBatchWithRetry],
    by recursion on the attempts that remain, [MAX_RETRIES - attempt];
    when none remains the loop is left and the terminal error thrown. *)
Fixpoint retryLoop (remaining : nat) (options : VideoGenerationOptions)
    (startIndex count : Z) (previousContext storySummary : jsstring)
  : Async BatchResult :=
  match remaining with
  | O => throw (newError TERMINAL)
  | S remaining' =>
      tryCatch
        (generateBatch options startIndex count previousContext storySummary)
        (fun error =>
           let attempt := (MAX_RETRIES - Z.of_nat remaining')%Z in
           match decide_retry attempt error with
           | RetryAfter waitTime notice =>
               onProgress notice ;;
               delay waitTime ;;
               retryLoop remaining' options startIndex count previousContext
                 storySummary
           | Rethrow => throw error
           end)
  end.

(** [generateBatchWithRetry(ai, options, startIndex, count,
    previousContext, storySummary, onProgress)]: [attempt] starts at 0 *)
Definition generateBatchWithRetry (options : VideoGenerationOptions)
    (startIndex count : Z) (previousContext storySummary : jsstring)
  : Async BatchResult :=
  retryLoop (Z.to_nat MAX_RETRIES) options startIndex count previousContext
    storySummary.

(** One round of the loop over the batches of [generateScript]; the
    output of [console.error] is not traced. *)
Definition batchRound (options : VideoGenerationOptions)
    (targetCount totalBatches : Z) (st : Batches) (batch : Z) : Async Batches :=
  let startIndex := (batch * BATCH_SIZE + 1)%Z in
  let countForThisBatch :=
    Z.min BATCH_SIZE (targetCount - Z.of_nat (length (allRawScenes st))) in
  onProgress
    (js "Đang xử lý phần " ++ numberToString (batch + 1) ++ js "/"
     ++ numberToString totalBatches ++ js " (Cảnh " ++ numberToString startIndex
     ++ js " - " ++ numberToString (startIndex + countForThisBatch - 1)
     ++ js ")...") ;;
  tryCatch
    (let* result :=
       generateBatchWithRetry options startIndex countForThisBatch
         (previousContext st) (storySummary st) in
     let storySummary1 :=
       if (batch =? 0)%Z then summary result else storySummary st in
     match rawScenes result with
     | _ :: _ =>
         let correctedScenes := correct startIndex (rawScenes result) in
         let lastScene := List.last correctedScenes emptyScene in
         let st1 :=
           {| allRawScenes := allRawScenes st ++ correctedScenes;
              storySummary := storySummary1;
              previousContext := contextOf lastScene |} in
         if (batch <? totalBatches - 1)%Z then
           onProgress (js "Đang nghỉ 6s để bảo vệ tài khoản Google...") ;;
           delay (Int 6000) ;;
           ret st1
         else ret st1
     | [] =>
         ret {| allRawScenes := allRawScenes st;
                storySummary := storySummary1;
                previousContext := previousContext st |}
     end)
    (fun err =>
       throw (newError (js "Lỗi ở phần " ++ numberToString (batch + 1)
                        ++ js ": " ++ messageText err))).

(** [generateScript(options, apiKey, onProgress)] *)
Definition generateScript (options : VideoGenerationOptions) (apiKey : jsstring)
  : Async Script :=
  createAiClient apiKey ;;
  let targetCount := targetCountOf options in
  let totalBatches := totalBatchesOf targetCount in
  let* st :=
    forEach (batchRound options targetCount totalBatches)
      (seqZ 0 totalBatches)
      {| allRawScenes := []; storySummary := []; previousContext := [] |} in
  ret {| story_summary := storySummary st;
         scenes := mapJsonToScenes (allRawScenes st) |}.

(** [extendScript(lastScene, extensionIdea, count, originalOptions, apiKey)] *)
Definition extendScript (lastScene : Scene) (extensionIdea : jsstring)
    (count : Z) (originalOptions : VideoGenerationOptions) (apiKey : jsstring)
  : Async (list Scene) :=
  createAiClient apiKey ;;
  let startNum := (scene_number lastScene + 1)%Z in
  tryCatch
    (let* json :=
       generateContent service (js "No response")
         (ExtendPrompt (scene_number lastScene) (script_description lastScene)
            extensionIdea count (videoStyle originalOptions)) in
     let mapped := mapJsonToScenes (default [] (fst json)) in
     ret (renumber startNum mapped))
    (fun error => throw (newError (js "Extension failed: " ++ messageText error))).
End App.
End App.

(* ===================================================================== *)
(** ** Reference statements and concrete inputs                           *)
(* ===================================================================== *)

(** Every white space left by the collapse is a single space. *)
Definition onlySpaces (s : jsstring) : Prop :=
  Forall (fun c => isWhiteSpace c = true -> c = SP) s.

(** The validation rule in the words of the specification: the signature
    matches and the expiry field is the unlimited literal or the current
    time is strictly below the decoded expiry. *)
Definition specValidate `{CaseMapping} (now : Z)
    (expHex typeCode signature : jsstring) : Prop :=
  signature = expectedSig expHex typeCode
  /\ (expHex = LIFETIME
      \/ exists expiresAt, parseInt expHex 16 = Some expiresAt /\ (now < expiresAt)%Z).

(** A key of type [A] that expires at 2026-01-01T00:00:00Z, the instant
    1767225600000 ([0x19B76DAA800]). *)
Definition keyExpiring2026 : jsstring := js "SK-19B76DAA800-A-7478A1DC".

Definition newYear2026 : Z := 1767225600000.

(** A key without expiry. *)
Definition keyLifetime : jsstring := js "SK-LIFETIME-A-2B511D18".

(** The events a run of the guard appends to the log of [g]. *)
Definition newEvents (g g' : Guard) : list GuardEvent :=
  drop (length (events g)) (events g').

(** A license server that has revoked every key. *)
Definition revoking : jsstring -> FetchOutcome :=
  fun _ => FetchResponse 403 Unreadable.

(** A license server that answers 200 with [{ valid: false }]. *)
Definition refusing : jsstring -> FetchOutcome :=
  fun _ => FetchResponse 200 (Payload (Some false) None).

(** The guard as mounted with the lifetime key in the license slot. *)
Definition mountedWithKey : Guard := mount {[ LICENSE_SLOT := keyLifetime ]}.

(** The locked guard with the lifetime key typed into the input. *)
Definition typedKey : Guard := setIsLoading false (setKeyInput keyLifetime (mount ∅)).




(** A scene that only carries a continuity note. *)
Definition continuedScene : Raw.Scene :=
  {| Raw.scene := None; Raw.time := None;
     Raw.continuity_reference := Some (js "same room");
     Raw.environment := None; Raw.characters := None; Raw.camera := None;
     Raw.visual_style := None; Raw.dialogue := None; Raw.wishk_prompt := None |}.

(** A failure the retry wrapper classifies as transient. *)
Definition classified (error : JsError) : bool :=
  isQuota (errorString error) || isOverloaded (errorString error).

(** The world after a request has been sent. *)
Definition sent (request : Request) (w : World) : World :=
  {| requests := S (requests w); trace := trace w ++ [Sent request] |}.

(** The world after a retry notice and the wait that follows it. *)
Definition waited (notice : jsstring) (waitTime : Integral) (w : World) : World :=
  {| requests := requests w;
     trace := trace w ++ [Progress notice; Wait waitTime] |}.

(** The request of a batch. *)
Definition batchRequest (options : VideoGenerationOptions) (startIndex count : Z)
    (previousContext storySummary : jsstring) : Request :=
  BatchPrompt (idea options) (videoStyle options) (dialogueLanguage options)
    startIndex count previousContext storySummary.

(** The error a failed call throws inside [generateBatch]. *)
Definition failureOf (response : AiResponse) : option JsError :=
  match response with
  | Rejected error => Some error
  | NoText => Some (newError (js "No response from AI"))
  | Malformed error => Some error
  | Parsed _ _ => None
  end.

Definition sampleOptions (count : PromptCount) : VideoGenerationOptions :=
  {| idea := js "a fox crosses a river"; videoStyle := js "anime";
     promptCount := count; dialogueLanguage := js "Tiếng Việt";
     promptType := None |}.



(** A service that is out of quota on every request. *)
Definition quotaError : JsError := newError (js "429 Too Many Requests").

Definition exhausted : AiService := fun _ _ => Rejected quotaError.


(** A character that is a decimal digit. *)
Definition isDecimal (c : N) : Prop := (48 <= c <= 57)%N.

(** A non-empty run of decimal digits. *)
Definition decimalDigits (s : jsstring) : Prop := s <> [] /\ Forall isDecimal s.

(** The number a run of decimal digits writes: every digit counts for its
    value times the power of ten of its place. *)
Fixpoint decimalOf (digits : jsstring) : Z :=
  match digits with
  | [] => 0%Z
  | c :: rest => ((Z.of_N c - 48) * 10 ^ Z.of_nat (length rest) + decimalOf rest)%Z
  end.













(** [{ ...options, promptCount: count }] *)
Definition withPromptCount (count : PromptCount) (options : VideoGenerationOptions)
  : VideoGenerationOptions :=
  {| idea := idea options; videoStyle := videoStyle options; promptCount := count;
     dialogueLanguage := dialogueLanguage options; promptType := promptType options |}.

(** A text that starts, after white space and an optional sign, with a run
    of decimal digits: [n] is the integer the sign and the whole run
    write.  This is the integer [parseInt(text, 10)] reads, in the words of
    the standard. *)
Definition leadingInteger (text : jsstring) (n : Z) : Prop :=
  exists ws sign digits rest,
    text = ws ++ sign ++ digits ++ rest
    /\ Forall (fun c => isWhiteSpace c = true) ws
    /\ decimalDigits digits
    /\ match rest with
       | c :: _ => ~ isDecimal c
       | [] => True
       end
    /\ (sign = [] /\ n = decimalOf digits
        \/ sign = js "+" /\ n = decimalOf digits
        \/ sign = js "-" /\ n = (- decimalOf digits)%Z).

(** A [promptCount] that is missing, [NaN], a number that is at most 0, or
    a text with no leading integer or with one that is at most 0. *)
Definition badCount (count : PromptCount) : Prop :=
  match count with
  | CountMissing => True
  | CountNaN => True
  | CountNumber n => (n <= 0)%Z
  | CountText text => forall n, leadingInteger text n -> (n <= 0)%Z
  end.

(** A numeric text: an optional sign, decimal digits and, maybe, a point
    and more decimal digits. *)
Definition numericText (text : jsstring) : Prop :=
  exists sign whole,
    (sign = [] \/ sign = js "+" \/ sign = js "-") /\ decimalDigits whole
    /\ (text = sign ++ whole
        \/ exists fraction,
             decimalDigits fraction /\ text = sign ++ whole ++ js "." ++ fraction).

(** A service that answers every batch request with exactly the number of
    scenes it asks for. *)
Definition compliant (service : AiService) : Prop :=
  forall n idea videoStyle dialogueLanguage startIndex count previousContext
         storySummary,
  exists scenes story_summary,
    service n (BatchPrompt idea videoStyle dialogueLanguage startIndex count
                 previousContext storySummary)
    = Parsed (Some scenes) story_summary
    /\ length scenes = Z.to_nat count.

(** The numbers of scenes of the batches of a run for [targetCount] scenes. *)
Definition batchSizes (targetCount : Z) : list Z :=
  map (fun batch => Z.min App.BATCH_SIZE (targetCount - App.BATCH_SIZE * batch))
    (seqZ 0 (App.totalBatchesOf targetCount)).

(** A raw scene on which the model reports the number 99. *)
Definition scene99 : Raw.Scene := Raw.withScene 99 emptyScene.

(** A service that sends the requested number of scenes, all numbered 99. *)
Definition obedient : AiService :=
  fun _ request =>
    match request with
    | BatchPrompt _ _ _ _ count _ _ =>
        Parsed (Some (replicate (Z.to_nat count) scene99)) (Some (js "tóm tắt"))
    | ExtendPrompt _ _ _ count _ =>
        Parsed (Some (replicate (Z.to_nat count) scene99)) None
    | ScriptPrompt _ => NoText
    end.

(** A service that sends 7 scenes for the first request, and the
    requested number afterwards. *)
Definition short : AiService :=
  fun n request =>
    match request with
    | BatchPrompt _ _ _ _ count _ _ =>
        Parsed (Some (replicate (if Nat.eqb n 0 then 7 else Z.to_nat count) scene99))
          (Some (js "tóm tắt"))
    | _ => NoText
    end.

(** A service that answers the single script request with two scenes,
    both numbered 99. *)
Definition reporting99 : AiService :=
  fun _ _ => Parsed (Some [scene99; scene99]) (Some (js "tóm tắt")).

(** A service that sends 3 scenes, whatever is asked. *)
Definition three : AiService :=
  fun _ _ => Parsed (Some (replicate 3 scene99)) None.

(** The scene numbers of the script a run returns. *)
Definition returnedNumbers (run : Outcome Script * World) : option (list Z) :=
  match fst run with
  | Returned script => Some (map scene_number (scenes script))
  | Thrown _ => None
  end.

Definition returnedScenes (run : Outcome (list Scene) * World) : option (list Z) :=
  match fst run with
  | Returned scenes => Some (map scene_number scenes)
  | Thrown _ => None
  end.

(** Scene 23 of a script. *)
Definition scene23 : Scene :=
  {| scene_number := 23; script_description := js "Cảnh 23";
     veo_prompt := js "{}"; wishk_prompt := [] |}.


(* ===================================================================== *)
(** * Properties                                                          *)
(* ===================================================================== *)

(** ** cleanForJson *)

Lemma isLineBreak_isWhiteSpace (c : N) :
  isLineBreak c = true -> isWhiteSpace c = true.
Proof.
  unfold isLineBreak, CR, LF. intros Hc.
  apply orb_true_iff in Hc as [Hc | Hc]; apply N.eqb_eq in Hc; subst c; reflexivity.
Qed.

Lemma hasWhitespaceRun_cons (c : N) (s : jsstring) :
  hasWhitespaceRun (c :: s)
  = isWhiteSpace c && startsWithWhitespace s || hasWhitespaceRun s.
Proof. destruct s as [| d s]; simpl; [by rewrite andb_false_r | done]. Qed.

Lemma hasWhitespaceRun_tail (c : N) (s : jsstring) :
  hasWhitespaceRun (c :: s) = false -> hasWhitespaceRun s = false.
Proof. rewrite hasWhitespaceRun_cons. by intros [_ ?]%orb_false_iff. Qed.

Lemma collapseWhitespace_onlySpaces (inRun : bool) (s : jsstring) :
  onlySpaces (collapseWhitespace inRun s).
Proof.
  revert inRun. induction s as [| c r IH]; intros inRun; simpl.
  - constructor.
  - destruct (isWhiteSpace c) eqn:Hc.
    + destruct inRun; [apply IH |]. constructor; [done | apply IH].
    + constructor; [congruence | apply IH].
Qed.

Lemma collapseWhitespace_no_run (inRun : bool) (s : jsstring) :
  hasWhitespaceRun (collapseWhitespace inRun s) = false
  /\ (inRun = true -> startsWithWhitespace (collapseWhitespace inRun s) = false).
Proof.
  revert inRun. induction s as [| c r IH]; intros inRun; simpl.
  - done.
  - destruct (isWhiteSpace c) eqn:Hc.
    + destruct inRun.
      * apply IH.
      * split; [| done]. rewrite hasWhitespaceRun_cons.
        destruct (IH true) as [H1 H2]. rewrite H1, (H2 eq_refl).
        by destruct (isWhiteSpace SP).
    + split; [| by intros _; simpl].
      rewrite hasWhitespaceRun_cons, Hc. simpl. apply IH.
Qed.

Lemma dropWhile_suffix (p : N -> bool) (s : jsstring) :
  exists dropped, s = dropped ++ dropWhile p s.
Proof.
  induction s as [| c r [dropped IH]]; simpl.
  - by exists [].
  - destruct (p c); [| by exists []].
    exists (c :: dropped). simpl. by f_equal.
Qed.

Lemma dropWhile_head (p : N -> bool) (s : jsstring) (c : N) (r : jsstring) :
  dropWhile p s = c :: r -> p c = false.
Proof.
  induction s as [| d s IH]; simpl; [done |].
  destruct (p d) eqn:Hd; [done |]. intros [= -> _]. done.
Qed.

Lemma dropWhileEnd_prefix (p : N -> bool) (s : jsstring) :
  exists dropped, s = dropWhileEnd p s ++ dropped.
Proof.
  induction s as [| c r [dropped IH]]; simpl.
  - by exists [].
  - destruct (dropWhileEnd p r) as [| d r'] eqn:Hr.
    + destruct (p c).
      * by exists (c :: r).
      * exists r. done.
    + exists dropped. simpl in *. by f_equal.
Qed.

Lemma dropWhileEnd_last (p : N -> bool) (s : jsstring) :
  match last (dropWhileEnd p s) with
  | Some c => p c = false
  | None => True
  end.
Proof.
  induction s as [| c r IH]; simpl; [done |].
  destruct (dropWhileEnd p r) as [| d r'] eqn:Hr.
  - destruct (p c) eqn:Hc; simpl; done.
  - change (last (c :: d :: r')) with (last (d :: r')). done.
Qed.

Lemma hasWhitespaceRun_app_l (s t : jsstring) :
  hasWhitespaceRun (s ++ t) = false -> hasWhitespaceRun s = false.
Proof.
  induction s as [| c r IH]; simpl app; [done |].
  rewrite !hasWhitespaceRun_cons.
  intros [H1 H2]%orb_false_iff. rewrite (IH H2), orb_false_r.
  destruct r as [| d r]; simpl in *; [by rewrite andb_false_r | done].
Qed.

Lemma hasWhitespaceRun_app_r (s t : jsstring) :
  hasWhitespaceRun (s ++ t) = false -> hasWhitespaceRun t = false.
Proof.
  induction s as [| c r IH]; simpl app; [done |].
  intros Hrun. apply IH. by apply hasWhitespaceRun_tail in Hrun.
Qed.

Lemma endsWithWhitespace_last (s : jsstring) :
  endsWithWhitespace s = from_option isWhiteSpace false (last s).
Proof.
  induction s as [| c [| d r] IH]; simpl; try done.
Qed.

Lemma trim_no_run (s : jsstring) :
  hasWhitespaceRun s = false -> hasWhitespaceRun (trim s) = false.
Proof.
  intros Hs. unfold trim.
  destruct (dropWhile_suffix isWhiteSpace s) as [d1 H1].
  destruct (dropWhileEnd_prefix isWhiteSpace (dropWhile isWhiteSpace s)) as [d2 H2].
  rewrite H1 in Hs. apply hasWhitespaceRun_app_r in Hs.
  rewrite H2 in Hs. by apply hasWhitespaceRun_app_l in Hs.
Qed.

Lemma trim_onlySpaces (s : jsstring) : onlySpaces s -> onlySpaces (trim s).
Proof.
  unfold onlySpaces, trim. intros Hs.
  destruct (dropWhile_suffix isWhiteSpace s) as [d1 H1].
  destruct (dropWhileEnd_prefix isWhiteSpace (dropWhile isWhiteSpace s)) as [d2 H2].
  rewrite H1 in Hs. apply Forall_app in Hs as [_ Hs].
  rewrite H2 in Hs. by apply Forall_app in Hs as [Hs _].
Qed.

Lemma trim_starts (s : jsstring) : startsWithWhitespace (trim s) = false.
Proof.
  unfold trim.
  destruct (dropWhileEnd_prefix isWhiteSpace (dropWhile isWhiteSpace s)) as [d2 H2].
  destruct (dropWhileEnd isWhiteSpace (dropWhile isWhiteSpace s)) as [| c r]; [done |].
  simpl. by apply (dropWhile_head isWhiteSpace s c (r ++ d2)).
Qed.

Lemma trim_ends (s : jsstring) : endsWithWhitespace (trim s) = false.
Proof.
  unfold trim. rewrite endsWithWhitespace_last.
  pose proof (dropWhileEnd_last isWhiteSpace (dropWhile isWhiteSpace s)) as Hl.
  by destruct (last _).
Qed.

Lemma onlySpaces_no_line_break (s : jsstring) :
  onlySpaces s -> hasLineBreak s = false.
Proof.
  unfold onlySpaces, hasLineBreak. induction 1 as [| c r Hc _ IH]; simpl; [done |].
  rewrite IH, orb_false_r. destruct (isLineBreak c) eqn:Hb; [| done].
  rewrite (Hc (isLineBreak_isWhiteSpace c Hb)) in Hb. done.
Qed.

(** C6. The output of [cleanForJson] holds no line break, no two white
    space characters in a row, and neither starts nor ends with white
    space, whatever the input. *)
Theorem cleanForJson_single_line (text : option jsstring) :
  hasLineBreak (cleanForJson text) = false
  /\ hasWhitespaceRun (cleanForJson text) = false
  /\ startsWithWhitespace (cleanForJson text) = false
  /\ endsWithWhitespace (cleanForJson text) = false.
Proof.
  unfold cleanForJson. destruct text as [t |]; [| done].
  destruct (falsyText (Some t)); [done |].
  set (collapsed := collapseWhitespace false (replaceLineBreaks t)).
  assert (Hspaces : onlySpaces (trim collapsed))
    by apply trim_onlySpaces, collapseWhitespace_onlySpaces.
  split; [by apply onlySpaces_no_line_break |].
  split; [apply trim_no_run, collapseWhitespace_no_run |].
  split; [apply trim_starts | apply trim_ends].
Qed.

(** ** KeyCodec *)

(** What [verifyKeyOffline] answers on a key of four segments with the
    prefix [SK]. *)
Lemma verifyKeyOffline_parsed `{CaseMapping} (now : Z)
    (keyString expHex typeCode signature : jsstring) :
  split 45 keyString = [js "SK"; expHex; typeCode; signature] ->
  valid (verifyKeyOffline now keyString)
  = bool_decide (signature = expectedSig expHex typeCode)
    && (bool_decide (expHex = LIFETIME) || negb (nowAfter now (parseInt expHex 16))).
Proof.
  intros Hparts. unfold verifyKeyOffline. rewrite Hparts.
  rewrite (bool_decide_eq_true_2 (js "SK" = js "SK") eq_refl). simpl negb at 1.
  cbv iota.
  destruct (bool_decide (signature = expectedSig expHex typeCode)); simpl; [| done].
  destruct (bool_decide (expHex = LIFETIME)); simpl; [done |].
  by destruct (nowAfter now (parseInt expHex 16)).
Qed.

(** C3, as the code has it.  On a parsed key the offline validation
    answers true exactly when the signature is the recomputed one and the
    expiry field is the unlimited literal or the current time is not
    greater than the decoded expiry (a field that decodes to no number is
    never greater); a key without expiry is valid at every time, and a key
    whose decoded expiry lies strictly in the past is not valid. *)
Theorem verifyKeyOffline_valid_iff `{CaseMapping} (now : Z)
    (keyString expHex typeCode signature : jsstring) :
  split 45 keyString = [js "SK"; expHex; typeCode; signature] ->
  (valid (verifyKeyOffline now keyString) = true
   <-> signature = expectedSig expHex typeCode
       /\ (expHex = LIFETIME
           \/ match parseInt expHex 16 with
              | Some expiresAt => (now <= expiresAt)%Z
              | None => True
              end))
  /\ (signature = expectedSig expHex typeCode -> expHex = LIFETIME ->
      forall anyTime, valid (verifyKeyOffline anyTime keyString) = true)
  /\ (forall expiresAt, parseInt expHex 16 = Some expiresAt ->
      (expiresAt < now)%Z -> valid (verifyKeyOffline now keyString) = false).
Proof.
  intros Hparts. split; [| split].
  - rewrite (verifyKeyOffline_parsed now _ _ _ _ Hparts).
    rewrite andb_true_iff, orb_true_iff, !bool_decide_eq_true, negb_true_iff.
    unfold nowAfter. destruct (parseInt expHex 16) as [expiresAt |].
    + rewrite Z.gtb_ltb, Z.ltb_ge. tauto.
    + tauto.
  - intros Hsig Hlife anyTime.
    rewrite (verifyKeyOffline_parsed anyTime _ _ _ _ Hparts).
    by rewrite !bool_decide_eq_true_2.
  - intros expiresAt Hdecode Hpast.
    rewrite (verifyKeyOffline_parsed now _ _ _ _ Hparts).
    assert (Hnot : bool_decide (expHex = LIFETIME) = false).
    { apply bool_decide_eq_false. intros ->. vm_compute in Hdecode. done. }
    rewrite Hnot, Hdecode. simpl. rewrite Z.gtb_ltb.
    apply Z.ltb_lt in Hpast. rewrite Hpast. apply andb_false_r.
Qed.

Lemma verifyKeyOffline_valid_iff_witness :
  split 45 keyExpiring2026 = [js "SK"; js "19B76DAA800"; js "A"; js "7478A1DC"]
  /\ valid (@verifyKeyOffline asciiCase newYear2026 keyExpiring2026) = true
  /\ valid (@verifyKeyOffline asciiCase (newYear2026 + 1) keyExpiring2026) = false.
Proof.
  pose proof (@verifyKeyOffline_valid_iff asciiCase newYear2026 keyExpiring2026
                (js "19B76DAA800") (js "A") (js "7478A1DC") eq_refl) as [Hiff _].
  pose proof (@verifyKeyOffline_valid_iff asciiCase (newYear2026 + 1) keyExpiring2026
                (js "19B76DAA800") (js "A") (js "7478A1DC") eq_refl)
    as (_ & _ & Hpast).
  split; [reflexivity |]. split.
  - apply Hiff. split; [reflexivity |]. right. vm_compute. discriminate.
  - apply (Hpast newYear2026); [reflexivity | lia].
Defined.

(** C3, as stated, fails at the instant of expiry: the key that expires at
    2026-01-01T00:00:00Z is still valid at that instant, where the stated
    rule asks for a current time strictly below the expiry. *)
Lemma verifyKeyOffline_not_specValidate :
  split 45 keyExpiring2026 = [js "SK"; js "19B76DAA800"; js "A"; js "7478A1DC"]
  /\ parseInt (js "19B76DAA800") 16 = Some newYear2026
  /\ valid (@verifyKeyOffline asciiCase newYear2026 keyExpiring2026) = true
  /\ ~ @specValidate asciiCase newYear2026 (js "19B76DAA800") (js "A")
        (js "7478A1DC").
Proof.
  split; [reflexivity |]. split; [reflexivity |]. split; [reflexivity |].
  intros [_ [Hlife | (expiresAt & Hdecode & Hlt)]].
  - vm_compute in Hlife. discriminate.
  - vm_compute in Hdecode. injection Hdecode as <-. unfold newYear2026 in Hlt. lia.
Qed.

(** ** LicenseGuard *)

(** The authoritative outcome INVALID is the answer to HTTP 403 or 404 and
    to a 2xx body with [valid: false], and to nothing else. *)
Lemma verifyKeyOnline_INVALID_iff (outcome : FetchOutcome) :
  status (verifyKeyOnline outcome) = INVALID
  <-> exists httpStatus body,
        outcome = FetchResponse httpStatus body
        /\ (httpStatus = 403%Z \/ httpStatus = 404%Z
            \/ responseOk httpStatus = true
               /\ exists messageField, body = Payload (Some false) messageField).
Proof.
  split.
  - destruct outcome as [| httpStatus body]; simpl; [done |].
    destruct (responseOk httpStatus) eqn:Hok; simpl.
    + destruct body as [| [[|] |] messageField]; simpl; try done.
      intros _. exists httpStatus, (Payload (Some false) messageField). eauto 6.
    + destruct (httpStatus =? 403)%Z eqn:H403; simpl.
      { apply Z.eqb_eq in H403. intros _. eauto 6. }
      destruct (httpStatus =? 404)%Z eqn:H404; simpl; [| done].
      apply Z.eqb_eq in H404. intros _. eauto 6.
  - intros (httpStatus & body & -> & [-> | [-> | [Hok [messageField ->]]]]);
      simpl; [done | done |]. by rewrite Hok.
Qed.

Lemma newEvents_app (g g' : Guard) (added : list GuardEvent) :
  events g' = events g ++ added -> newEvents g g' = added.
Proof. unfold newEvents. intros ->. by rewrite drop_app_length. Qed.

Section GuardFacts.
Context `{CaseMapping}.
Variable server : jsstring -> FetchOutcome.
Variable now : Z.

(** The log of a run of [checkSavedKey]: nothing without a saved key,
    else the online call, followed by the offline call exactly when the
    online status is neither VALID nor INVALID. *)
Lemma checkSavedKey_events (g : Guard) :
  newEvents g (checkSavedKey server now g)
  = match localStorage g !! LICENSE_SLOT with
    | Some (c :: k) =>
        VerifyOnline (c :: k)
        :: match status (verifyKeyOnline (server (c :: k))) with
           | VALID | INVALID => []
           | ERROR | NETWORK_ERROR => [VerifyOffline (c :: k)]
           end
    | _ => []
    end.
Proof using Type.
  apply newEvents_app. unfold checkSavedKey.
  destruct (localStorage g !! LICENSE_SLOT) as [[| c k] |]; simpl;
    try by rewrite app_nil_r.
  destruct (status (verifyKeyOnline (server (c :: k)))); simpl; try done;
    destruct (valid (verifyKeyOffline now (c :: k))); simpl;
    by rewrite <- app_assoc.
Qed.

Lemma handleUnlock_events (g : Guard) :
  newEvents g (handleUnlock server now g)
  = match toUpperCase (trim (keyInput g)) with
    | c :: k =>
        VerifyOnline (c :: k)
        :: match status (verifyKeyOnline (server (c :: k))) with
           | VALID | INVALID => []
           | ERROR | NETWORK_ERROR => [VerifyOffline (c :: k)]
           end
    | [] => []
    end.
Proof using Type.
  apply newEvents_app. unfold handleUnlock.
  destruct (toUpperCase (trim (keyInput g))) as [| c k]; simpl;
    [by rewrite app_nil_r |].
  destruct (status (verifyKeyOnline (server (c :: k)))); simpl; try done;
    destruct (valid (verifyKeyOffline now (c :: k))); simpl;
    by rewrite <- app_assoc.
Qed.

(** C2. When the online verification answers INVALID, [checkSavedKey]
    clears the persisted key, leaves a locked guard locked and logs the
    online call only; [handleUnlock] keeps the storage, leaves the guard
    locked and logs the online call only.  In both, an offline call is
    logged only when the online status is ERROR or NETWORK_ERROR.
    INVALID is the outcome of HTTP 403/404 and of a 2xx body with
    [valid: false]. *)
Theorem invalid_never_falls_back (g : Guard) :
  (forall outcome,
      status (verifyKeyOnline outcome) = INVALID
      <-> exists httpStatus body,
            outcome = FetchResponse httpStatus body
            /\ (httpStatus = 403%Z \/ httpStatus = 404%Z
                \/ responseOk httpStatus = true
                   /\ exists messageField, body = Payload (Some false) messageField))
  /\ (forall savedKey,
        localStorage g !! LICENSE_SLOT = Some savedKey -> savedKey <> [] ->
        status (verifyKeyOnline (server savedKey)) = INVALID ->
        isUnlocked g = false ->
        localStorage (checkSavedKey server now g) !! LICENSE_SLOT = None
        /\ isUnlocked (checkSavedKey server now g) = false
        /\ newEvents g (checkSavedKey server now g) = [VerifyOnline savedKey])
  /\ (forall key,
        VerifyOffline key ∈ newEvents g (checkSavedKey server now g) ->
        status (verifyKeyOnline (server key)) = ERROR
        \/ status (verifyKeyOnline (server key)) = NETWORK_ERROR)
  /\ (forall inputClean,
        toUpperCase (trim (keyInput g)) = inputClean -> inputClean <> [] ->
        status (verifyKeyOnline (server inputClean)) = INVALID ->
        isUnlocked g = false ->
        localStorage (handleUnlock server now g) = localStorage g
        /\ isUnlocked (handleUnlock server now g) = false
        /\ newEvents g (handleUnlock server now g) = [VerifyOnline inputClean])
  /\ (forall key,
        VerifyOffline key ∈ newEvents g (handleUnlock server now g) ->
        status (verifyKeyOnline (server key)) = ERROR
        \/ status (verifyKeyOnline (server key)) = NETWORK_ERROR).
Proof using Type.
  split; [apply verifyKeyOnline_INVALID_iff |]. split; [| split; [| split]].
  - intros savedKey Hsaved Hne Hinvalid Hlocked.
    rewrite checkSavedKey_events. unfold checkSavedKey. rewrite Hsaved.
    destruct savedKey as [| c k]; [done |]. rewrite Hinvalid. simpl.
    split; [apply lookup_delete_eq | done].
  - intros key. rewrite checkSavedKey_events.
    destruct (localStorage g !! LICENSE_SLOT) as [[| c k] |];
      try by intros ?%elem_of_nil.
    destruct (status (verifyKeyOnline (server (c :: k)))) eqn:Hstatus;
      intros Hin; apply elem_of_cons in Hin as [Hin | Hin];
      try discriminate Hin; try by apply elem_of_nil in Hin.
    + apply list_elem_of_singleton in Hin. injection Hin as ->. by left.
    + apply list_elem_of_singleton in Hin. injection Hin as ->. by right.
  - intros inputClean Hclean Hne Hinvalid Hlocked.
    rewrite handleUnlock_events. unfold handleUnlock. rewrite Hclean.
    destruct inputClean as [| c k]; [done |]. rewrite Hinvalid. by simpl.
  - intros key. rewrite handleUnlock_events.
    destruct (toUpperCase (trim (keyInput g))) as [| c k];
      try by intros ?%elem_of_nil.
    destruct (status (verifyKeyOnline (server (c :: k)))) eqn:Hstatus;
      intros Hin; apply elem_of_cons in Hin as [Hin | Hin];
      try discriminate Hin; try by apply elem_of_nil in Hin.
    + apply list_elem_of_singleton in Hin. injection Hin as ->. by left.
    + apply list_elem_of_singleton in Hin. injection Hin as ->. by right.
Qed.
End GuardFacts.

Lemma invalid_never_falls_back_witness :
  (localStorage mountedWithKey !! LICENSE_SLOT = Some keyLifetime
   /\ status (verifyKeyOnline (revoking keyLifetime)) = INVALID
   /\ valid (@verifyKeyOffline asciiCase 0 keyLifetime) = true
   /\ localStorage (@checkSavedKey asciiCase revoking 0 mountedWithKey)
        !! LICENSE_SLOT = None
   /\ isUnlocked (@checkSavedKey asciiCase revoking 0 mountedWithKey) = false
   /\ newEvents mountedWithKey (@checkSavedKey asciiCase revoking 0 mountedWithKey)
      = [VerifyOnline keyLifetime])
  /\ (@toUpperCase asciiCase (trim (keyInput typedKey)) = keyLifetime
      /\ status (verifyKeyOnline (refusing keyLifetime)) = INVALID
      /\ localStorage (@handleUnlock asciiCase refusing 0 typedKey)
         = localStorage typedKey
      /\ isUnlocked (@handleUnlock asciiCase refusing 0 typedKey) = false
      /\ newEvents typedKey (@handleUnlock asciiCase refusing 0 typedKey)
         = [VerifyOnline keyLifetime]).
Proof.
  assert (Hsaved : localStorage mountedWithKey !! LICENSE_SLOT = Some keyLifetime)
    by apply lookup_singleton_eq.
  assert (Hne : keyLifetime <> []) by discriminate.
  split.
  - destruct (@invalid_never_falls_back asciiCase revoking 0 mountedWithKey)
      as (_ & Hcheck & _).
    destruct (Hcheck keyLifetime Hsaved Hne eq_refl eq_refl) as (H1 & H2 & H3).
    repeat split; try assumption; reflexivity.
  - destruct (@invalid_never_falls_back asciiCase refusing 0 typedKey)
      as (_ & _ & _ & Hunlock & _).
    destruct (Hunlock keyLifetime eq_refl Hne eq_refl eq_refl) as (H1 & H2 & H3).
    repeat split; try assumption; reflexivity.
Defined.

(** ** SceneNormalizer *)

Lemma truthy_app_l (a b : jsstring) : truthy a = true -> truthy (a ++ b) = true.
Proof. by destruct a. Qed.

Lemma truthy_nonempty (s : jsstring) : truthy s = true <-> s <> [].
Proof. by destruct s. Qed.

Lemma filterBoolean_ends (first last : jsstring) (middle : list jsstring) :
  truthy first = true -> truthy last = true ->
  filterBoolean (first :: middle ++ [last])
  = first :: filterBoolean middle ++ [last].
Proof.
  intros Hfirst Hlast. unfold filterBoolean. simpl. rewrite Hfirst.
  rewrite List.filter_app. simpl. by rewrite Hlast.
Qed.

Section DescriptionFacts.
Context `{CaseMapping}.


Lemma sceneLine_truthy (item : Raw.Scene) (index : nat) :
  truthy (sceneLine item index) = true.
Proof. unfold sceneLine. by apply truthy_app_l. Qed.

Lemma dialogueLine_truthy (item : Raw.Scene) : truthy (dialogueLine item) = true.
Proof.
  unfold dialogueLine.
  destruct (truthy (cleanAttribute (opt (Raw.dialogue item) Raw.line)));
    [by apply truthy_app_l | done].
Qed.

(** The segments that survive [filter(Boolean)]: the scene segment and the
    dialogue segment always do. *)
Lemma filterBoolean_segments (continuityLine : jsstring) (item : Raw.Scene)
    (index : nat) :
  filterBoolean (segments continuityLine item index)
  = sceneLine item index
    :: filterBoolean [continuityLine; envLine item; charLine item;
                      cameraLine item; styleLine item]
    ++ [dialogueLine item].
Proof.
  apply (filterBoolean_ends (sceneLine item index) (dialogueLine item)
           [continuityLine; envLine item; charLine item; cameraLine item;
            styleLine item]).
  - apply sceneLine_truthy.
  - apply dialogueLine_truthy.
Qed.

Lemma script_description_buildScene (continuityLine : jsstring)
    (item : Raw.Scene) (index : nat) :
  script_description (buildScene continuityLine item index)
  = join (js " | ")
      (sceneLine item index
       :: filterBoolean [continuityLine; envLine item; charLine item;
                         cameraLine item; styleLine item]
       ++ [dialogueLine item]).
Proof. unfold buildScene. cbn [script_description]. by rewrite filterBoolean_segments. Qed.

End DescriptionFacts.



(** ** The two copies of mapJsonToScenes *)

Lemma join_cons_nonempty (sep first : jsstring) (rest : list jsstring) :
  rest <> [] -> join sep (first :: rest) = first ++ sep ++ join sep rest.
Proof. by destruct rest. Qed.

Lemma map_imap {A B C} (g : B -> C) (f : nat -> A -> B) (l : list A) :
  map g (imap f l) = imap (fun n x => g (f n x)) l.
Proof. revert f. induction l as [| x l IH]; intros f; simpl; [done |]. by rewrite IH. Qed.

Section CopiesFacts.
Context `{CaseMapping}.

(** Where the two copies build the same scene. *)
Lemma continuityLine_agree (item : Raw.Scene) (index : nat) :
  index = 0%nat \/ continuity item <> [] ->
  Service.continuityLine item index = App.continuityLine item.
Proof.
  unfold Service.continuityLine, App.continuityLine.
  intros [-> | Hcontinuity]; [by destruct (truthy _) |].
  apply truthy_nonempty in Hcontinuity. by rewrite Hcontinuity.
Qed.

(** Where they do not: the description of the copy of geminiService.ts
    is longer by the placeholder and its separator. *)
Lemma description_missing_longer (item : Raw.Scene) (index : nat) :
  length (script_description (buildScene Service.MISSING item index))
  = (length (script_description (buildScene [] item index))
     + length (js " | " ++ Service.MISSING))%nat.
Proof.
  rewrite !script_description_buildScene.
  set (others := [envLine item; charLine item; cameraLine item; styleLine item]).
  change (filterBoolean (Service.MISSING :: others))
    with (Service.MISSING :: filterBoolean others).
  change (filterBoolean ([] :: others)) with (filterBoolean others).
  assert (Hrest : filterBoolean others ++ [dialogueLine item] <> [])
    by (by destruct (filterBoolean others)).
  rewrite (join_cons_nonempty _ (sceneLine item index)
             ((Service.MISSING :: filterBoolean others) ++ [dialogueLine item]))
    by done.
  change ((Service.MISSING :: filterBoolean others) ++ [dialogueLine item])
    with (Service.MISSING :: (filterBoolean others ++ [dialogueLine item])).
  rewrite (join_cons_nonempty _ Service.MISSING _ Hrest).
  rewrite (join_cons_nonempty _ (sceneLine item index) _ Hrest).
  rewrite !length_app. lia.
Qed.

(** C9, as the code has it.  The two copies of [mapJsonToScenes] return
    lists of the same length that agree on [scene_number], [veo_prompt]
    and [wishk_prompt]; they return the same list exactly when every item
    after the first has a non-empty cleaned continuity note. *)
Theorem copies_agree_iff (rawScenes : list Raw.Scene) :
  (Service.mapJsonToScenes rawScenes = App.mapJsonToScenes rawScenes
   <-> forall index item,
         rawScenes !! index = Some item -> (0 < index)%nat ->
         continuity item <> [])
  /\ length (Service.mapJsonToScenes rawScenes)
     = length (App.mapJsonToScenes rawScenes)
  /\ map scene_number (Service.mapJsonToScenes rawScenes)
     = map scene_number (App.mapJsonToScenes rawScenes)
  /\ map veo_prompt (Service.mapJsonToScenes rawScenes)
     = map veo_prompt (App.mapJsonToScenes rawScenes)
  /\ map wishk_prompt (Service.mapJsonToScenes rawScenes)
     = map wishk_prompt (App.mapJsonToScenes rawScenes).
Proof.
  unfold Service.mapJsonToScenes, App.mapJsonToScenes.
  split; [split |].
  - intros Hsame index item Hitem Hpos Hcontinuity.
    apply (f_equal (fun scenes => script_description <$> scenes !! index)) in Hsame.
    rewrite !list_lookup_imap, Hitem in Hsame. cbn [fmap option_fmap option_map] in Hsame.
    apply (inj Some) in Hsame.
    assert (Hservice : Service.continuityLine item index = Service.MISSING).
    { unfold Service.continuityLine. rewrite Hcontinuity.
      apply Nat.ltb_lt in Hpos. by rewrite Hpos. }
    assert (Happ : App.continuityLine item = []).
    { unfold App.continuityLine. by rewrite Hcontinuity. }
    rewrite Hservice, Happ in Hsame.
    apply (f_equal length) in Hsame.
    rewrite description_missing_longer in Hsame.
    rewrite length_app in Hsame. simpl in Hsame. lia.
  - intros Hall. apply imap_ext. intros index item Hitem.
    rewrite continuityLine_agree; [done |].
    destruct index as [| index]; [by left | right].
    apply (Hall (S index) item Hitem). lia.
  - rewrite !length_imap, !map_imap. done.
Qed.
End CopiesFacts.

Lemma copies_agree_iff_witness :
  @continuity asciiCase continuedScene <> []
  /\ @Service.mapJsonToScenes asciiCase [emptyScene; continuedScene]
     = @App.mapJsonToScenes asciiCase [emptyScene; continuedScene].
Proof.
  split; [discriminate |].
  apply (@copies_agree_iff asciiCase [emptyScene; continuedScene]).
  intros [| [| index]] item Hitem Hpos; [lia | | done].
  injection Hitem as <-. discriminate.
Defined.

(** C9, as stated, fails on two items without continuity note: the copy of
    geminiService.ts puts the placeholder into the second description. *)
Lemma copies_differ :
  map script_description (@Service.mapJsonToScenes asciiCase [emptyScene; emptyScene])
  = [js "Cảnh 1 (Thời lượng: 0s - 5s) | Thoại: Không có";
     js "Cảnh 2 (Thời lượng: 0s - 5s) | Continuity: [Missing] | Thoại: Không có"]
  /\ map script_description (@App.mapJsonToScenes asciiCase [emptyScene; emptyScene])
     = [js "Cảnh 1 (Thời lượng: 0s - 5s) | Thoại: Không có";
        js "Cảnh 2 (Thời lượng: 0s - 5s) | Thoại: Không có"]
  /\ @Service.mapJsonToScenes asciiCase [emptyScene; emptyScene]
     <> @App.mapJsonToScenes asciiCase [emptyScene; emptyScene].
Proof.
  split; [reflexivity |]. split; [reflexivity |].
  intros Hsame.
  apply (f_equal (fun scenes => map (fun s => length (script_description s)) scenes))
    in Hsame.
  vm_compute in Hsame. discriminate.
Qed.
(** ** Doubles *)



Section DoubleFacts.
Local Open Scope Z_scope.




End DoubleFacts.

(** ** Runs of characters *)

Lemma takeWhile_dropWhile (p : N -> bool) (s : jsstring) :
  s = takeWhile p s ++ dropWhile p s.
Proof.
  induction s as [| c r IH]; [done |]. cbn [takeWhile dropWhile].
  destruct (p c); [| done]. cbn [app]. by f_equal.
Qed.

Lemma takeWhile_Forall (p : N -> bool) (s : jsstring) :
  Forall (fun c => p c = true) (takeWhile p s).
Proof.
  induction s as [| c r IH]; [constructor |]. cbn [takeWhile].
  destruct (p c) eqn:Hc; by constructor.
Qed.

(** A run of [p] that is followed by no character of [p] is what
    [takeWhile] takes and [dropWhile] drops. *)
Lemma span_run (p : N -> bool) (run rest : jsstring) :
  Forall (fun c => p c = true) run ->
  match rest with
  | c :: _ => p c = false
  | [] => True
  end ->
  takeWhile p (run ++ rest) = run /\ dropWhile p (run ++ rest) = rest.
Proof.
  intros Hrun Hrest. induction Hrun as [| c run Hc _ [IH1 IH2]].
  - destruct rest as [| c rest]; [done |]. cbn. by rewrite Hrest.
  - cbn. rewrite Hc. by rewrite IH1, IH2.
Qed.

Lemma isDecimalDigit_isDecimal (c : N) : isDecimalDigit c = true <-> isDecimal c.
Proof.
  unfold isDecimalDigit, isDecimal.
  rewrite andb_true_iff, !N.leb_le. done.
Qed.


(** ** The advice pattern *)












(** ** RetryScheduler *)

Section RetryFacts.
Variable service : AiService.
Variable options : VideoGenerationOptions.
Variables startIndex count : Z.
Variables previousContext storySummary : jsstring.

#[local] Abbreviation request :=
  (batchRequest options startIndex count previousContext storySummary).

Lemma generateBatch_failure (w : World) (error : JsError) :
  failureOf (service (requests w) request) = Some error ->
  App.generateBatch service options startIndex count previousContext storySummary w
  = (Thrown error, sent request w).
Proof using Type.
  unfold App.generateBatch, bind, generateContent, request, batchRequest, sent.
  destruct (service (requests w) _); simpl; intros Hfail;
    try discriminate Hfail; by injection Hfail as <-.
Qed.

Lemma generateBatch_success (w : World) (scenes : option (list Raw.Scene))
    (story_summary : option jsstring) :
  service (requests w) request = Parsed scenes story_summary ->
  App.generateBatch service options startIndex count previousContext storySummary w
  = (Returned {| App.rawScenes := default [] scenes;
                 App.summary := default [] story_summary |},
     sent request w).
Proof using Type.
  unfold App.generateBatch, bind, generateContent, request, batchRequest, sent.
  by intros ->.
Qed.

(** One round of the loop whose request fails with [error]. *)
Lemma retryLoop_failure (remaining : nat) (w : World) (error : JsError) :
  failureOf (service (requests w) request) = Some error ->
  App.retryLoop service (S remaining) options startIndex count previousContext
    storySummary w
  = match decide_retry (MAX_RETRIES - Z.of_nat remaining) error with
    | RetryAfter waitTime notice =>
        App.retryLoop service remaining options startIndex count previousContext
          storySummary (waited notice waitTime (sent request w))
    | Rethrow => (Thrown error, sent request w)
    end.
Proof using Type.
  intros Hfail. cbn [App.retryLoop]. unfold tryCatch at 1.
  rewrite (generateBatch_failure w error Hfail).
  destruct (decide_retry _ _) as [waitTime notice |]; [| done].
  unfold bind, onProgress, delay, emit, waited. cbn [requests trace].
  by rewrite <- app_assoc.
Qed.

Lemma retryLoop_success (remaining : nat) (w : World)
    (scenes : option (list Raw.Scene)) (story_summary : option jsstring) :
  service (requests w) request = Parsed scenes story_summary ->
  App.retryLoop service (S remaining) options startIndex count previousContext
    storySummary w
  = (Returned {| App.rawScenes := default [] scenes;
                 App.summary := default [] story_summary |},
     sent request w).
Proof using Type.
  intros Hok. cbn [App.retryLoop]. unfold tryCatch at 1.
  by rewrite (generateBatch_success w _ _ Hok).
Qed.
End RetryFacts.

(** The decision of the [catch]: a retry exactly for a classified failure
    on an attempt below [MAX_RETRIES]. *)
Lemma decide_retry_classified (attempt : Z) (error : JsError) :
  classified error = true -> (attempt < MAX_RETRIES)%Z ->
  exists notice,
    decide_retry attempt error
    = RetryAfter
        match retryAdvice (errorString error) with
        | Some m => plusNumber (timesNumber (mathCeil (parseFloat m)) 1000) 3000
        | None =>
            Int (if isQuota (errorString error) then attempt * 20 * 1000
                 else 5 * 2 ^ (attempt - 1) * 1000)%Z
        end
        notice.
Proof.
  unfold classified, decide_retry. intros -> Hlt.
  apply Z.ltb_lt in Hlt. rewrite Hlt. cbn [andb].
  destruct (retryAdvice (errorString error)) as [m |].
  - by eexists.
  - destruct (isQuota (errorString error)); eexists; do 2 f_equal; lia.
Qed.

Lemma decide_retry_rethrow (attempt : Z) (error : JsError) :
  classified error = false \/ (MAX_RETRIES <= attempt)%Z ->
  decide_retry attempt error = Rethrow.
Proof.
  unfold classified, decide_retry. intros [-> | Hge]; [done |].
  apply Z.ltb_ge in Hge. rewrite Hge. by rewrite andb_false_r.
Qed.

(** *** The styles of error *)






(** *** The decimal of an advice *)

Lemma digitValue_decimal (c : N) :
  isDecimal c -> digitValue c = Some (Z.of_N c - 48)%Z.
Proof.
  intros Hc. apply isDecimalDigit_isDecimal in Hc. unfold digitValue.
  unfold isDecimalDigit in Hc. by rewrite Hc.
Qed.


Lemma digitsValue_decimalOf (digits : jsstring) :
  Forall isDecimal digits -> digitsValue 10 digits = decimalOf digits.
Proof.
  intros Hdigits. unfold digitsValue.
  set (step := fun (acc : Z) (c : N) => _).
  assert (Hacc : forall acc,
            fold_left step digits acc
            = (acc * 10 ^ Z.of_nat (length digits) + decimalOf digits)%Z);
    [| rewrite Hacc; lia].
  induction Hdigits as [| c digits Hc _ IH]; intros acc; [cbn; lia |].
  cbn [fold_left decimalOf length]. rewrite IH. unfold step.
  rewrite (digitValue_decimal c Hc). cbn [default from_option id].
  rewrite Nat2Z.inj_succ, Z.pow_succ_r by lia. lia.
Qed.







Section Exhaustion.
Variable service : AiService.
Variable options : VideoGenerationOptions.
Variables startIndex count : Z.
Variables previousContext storySummary : jsstring.

#[local] Abbreviation request :=
  (batchRequest options startIndex count previousContext storySummary).

(** When every remaining attempt fails with a classified error, the loop
    ends by throwing the error of the last attempt. *)
Lemma retryLoop_exhausts (errors : nat -> JsError) (remaining : nat) :
  forall (w : World) (k : nat),
    (remaining < 10)%nat ->
    (forall i, (i <= remaining)%nat ->
       failureOf (service (requests w + i) request) = Some (errors (k + i))
       /\ classified (errors (k + i)) = true) ->
    fst (App.retryLoop service (S remaining) options startIndex count
           previousContext storySummary w)
    = Thrown (errors (k + remaining))
    /\ requests (snd (App.retryLoop service (S remaining) options startIndex count
                        previousContext storySummary w))
       = requests w + S remaining.
Proof using Type.
  induction remaining as [| remaining IH]; intros w k Hlt Hall.
  - destruct (Hall 0%nat) as [Hfail Hclass]; [lia |].
    replace (requests w + 0)%nat with (requests w) in Hfail by lia.
    replace (k + 0)%nat with k in Hfail, Hclass by lia.
    rewrite (retryLoop_failure _ _ _ _ _ _ _ _ _ Hfail).
    rewrite decide_retry_rethrow by (right; unfold MAX_RETRIES; lia).
    rewrite Nat.add_0_r. simpl. split; [done | lia].
  - destruct (Hall 0%nat) as [Hfail Hclass]; [lia |].
    replace (requests w + 0)%nat with (requests w) in Hfail by lia.
    replace (k + 0)%nat with k in Hfail, Hclass by lia.
    rewrite (retryLoop_failure _ _ _ _ _ _ _ _ _ Hfail).
    destruct (decide_retry_classified
                (MAX_RETRIES - Z.of_nat (S remaining)) (errors k) Hclass)
      as [notice ->]; [unfold MAX_RETRIES; lia |].
    match goal with
    | |- context [App.retryLoop _ _ _ _ _ _ _ ?w1] =>
        destruct (IH w1 (S k)) as [Hthrown Hrequests]
    end.
    + lia.
    + intros i Hi. cbn [waited sent requests].
      replace (S (requests w) + i)%nat with (requests w + S i)%nat by lia.
      replace (S k + i)%nat with (k + S i)%nat by lia.
      apply Hall. lia.
    + rewrite Hthrown, Hrequests. cbn [waited sent requests].
      split; [f_equal; f_equal; lia | lia].
Qed.

(** The error thrown by the wrapper is always one a request failed with:
    the terminal error after the loop is never reached. *)
Lemma retryLoop_throws_failure (remaining : nat) :
  forall (w : World) (error : JsError),
    fst (App.retryLoop service (S remaining) options startIndex count
           previousContext storySummary w) = Thrown error ->
    exists k, failureOf (service k request) = Some error.
Proof using Type.
  induction remaining as [| remaining IH]; intros w error.
  - destruct (failureOf (service (requests w) request)) as [e |] eqn:Hfail.
    + rewrite (retryLoop_failure _ _ _ _ _ _ _ _ _ Hfail).
      rewrite decide_retry_rethrow by (right; unfold MAX_RETRIES; lia).
      simpl. intros [= <-]. eauto.
    + destruct (service (requests w) request) as [| | | scenes story_summary] eqn:Hok;
        try discriminate Hfail.
      by rewrite (retryLoop_success _ _ _ _ _ _ _ _ _ _ Hok).
  - destruct (failureOf (service (requests w) request)) as [e |] eqn:Hfail.
    + rewrite (retryLoop_failure _ _ _ _ _ _ _ _ _ Hfail).
      destruct (decide_retry _ e) as [waitTime notice |].
      * apply IH.
      * simpl. intros [= <-]. eauto.
    + destruct (service (requests w) request) as [| | | scenes story_summary] eqn:Hok;
        try discriminate Hfail.
      by rewrite (retryLoop_success _ _ _ _ _ _ _ _ _ _ Hok).
Qed.
End Exhaustion.

(** C4, what the code does.  After ten consecutive classified failures
    within one batch call the wrapper has sent ten requests and throws the
    error of the tenth failure itself; the terminal error of the
    statement after the loop is not the one thrown. *)
Theorem tenth_failure_rethrows (service : AiService)
    (options : VideoGenerationOptions) (startIndex count : Z)
    (previousContext storySummary : jsstring) (w : World)
    (errors : nat -> JsError) :
  (forall i, (i < 10)%nat ->
     failureOf
       (service (requests w + i)
          (batchRequest options startIndex count previousContext storySummary))
     = Some (errors i)
     /\ classified (errors i) = true) ->
  fst (App.generateBatchWithRetry service options startIndex count previousContext
         storySummary w)
  = Thrown (errors 9%nat)
  /\ requests (snd (App.generateBatchWithRetry service options startIndex count
                      previousContext storySummary w))
     = requests w + 10.
Proof.
  intros Hall. unfold App.generateBatchWithRetry.
  change (Z.to_nat MAX_RETRIES) with 10%nat.
  apply (retryLoop_exhausts service options startIndex count previousContext
           storySummary errors 9 w 0); [lia |].
  intros i Hi. apply Hall. lia.
Qed.

Lemma tenth_failure_rethrows_witness :
  (forall i, (i < 10)%nat ->
     failureOf
       (exhausted (requests start + i)
          (batchRequest (sampleOptions (CountNumber 23)) 1 10 [] []))
     = Some quotaError
     /\ classified quotaError = true)
  /\ fst (App.generateBatchWithRetry exhausted (sampleOptions (CountNumber 23))
            1 10 [] [] start)
     = Thrown quotaError
  /\ message quotaError <> Some TERMINAL.
Proof.
  assert (Hall : forall i, (i < 10)%nat ->
            failureOf
              (exhausted (requests start + i)
                 (batchRequest (sampleOptions (CountNumber 23)) 1 10 [] []))
            = Some ((fun _ => quotaError) i)
            /\ classified ((fun _ => quotaError) i) = true)
    by (intros i _; split; reflexivity).
  split; [exact Hall |]. split.
  - exact (proj1 (tenth_failure_rethrows exhausted (sampleOptions (CountNumber 23))
                    1 10 [] [] start (fun _ => quotaError) Hall)).
  - discriminate.
Defined.

(** ** ScriptOrchestrator *)

Lemma bind_ext {A B} (m1 m2 : Async A) (k1 k2 : A -> Async B) (w : World) :
  m1 w = m2 w -> (forall a w1, k1 a w1 = k2 a w1) -> bind m1 k1 w = bind m2 k2 w.
Proof.
  intros Hm Hk. unfold bind. rewrite Hm.
  destruct (m2 w) as [[a | error] w1]; [apply Hk | done].
Qed.

Lemma tryCatch_ext {A} (m1 m2 : Async A) (h1 h2 : JsError -> Async A) (w : World) :
  m1 w = m2 w -> (forall error w1, h1 error w1 = h2 error w1) ->
  tryCatch m1 h1 w = tryCatch m2 h2 w.
Proof.
  intros Hm Hh. unfold tryCatch. rewrite Hm.
  destruct (m2 w) as [[a | error] w1]; [done | apply Hh].
Qed.

Lemma forEach_ext {S} (body1 body2 : S -> Z -> Async S) :
  (forall st i w, body1 st i w = body2 st i w) ->
  forall range st w, forEach body1 range st w = forEach body2 range st w.
Proof.
  intros Hbody range. induction range as [| i range IH]; intros st w; simpl; [done |].
  unfold bind. rewrite Hbody. destruct (body2 st i w) as [[st1 | error] w1]; [| done].
  apply IH.
Qed.

(** *** The integer [parseInt] reads *)

Lemma isDigitOf_10 (c : N) : isDigitOf 10 c = true <-> isDecimal c.
Proof.
  unfold isDigitOf, digitValue, isDecimal.
  destruct (N.leb_spec 48 c) as [H1 | H1], (N.leb_spec c 57) as [H2 | H2];
    cbn [andb].
  { split; [lia | intros _; apply Z.ltb_lt; lia]. }
  all: split; [| lia].
  all: destruct (N.leb_spec 97 c), (N.leb_spec c 122); cbn [andb];
    try (rewrite Z.ltb_lt; lia).
  all: destruct (N.leb_spec 65 c), (N.leb_spec c 90); cbn [andb];
    try (rewrite Z.ltb_lt; lia); done.
Qed.

Lemma Forall_isDigitOf_10 (s : jsstring) :
  Forall (fun c => isDigitOf 10 c = true) s <-> Forall isDecimal s.
Proof. apply Forall_proper; [| done]. intros c. apply isDigitOf_10. Qed.

Lemma decimal_not_space (c : N) : isDecimal c -> isWhiteSpace c = false.
Proof.
  unfold isDecimal, isWhiteSpace. intros Hc.
  rewrite (proj2 (N.leb_gt c 13)), (proj2 (N.leb_gt 8192 c)) by lia.
  rewrite !(proj2 (N.eqb_neq c _)) by lia.
  by rewrite andb_false_r.
Qed.

(** [parseInt(text, 10)] reads the leading integer of the text, and
    nothing when the text has none. *)
Lemma parseInt_sound (text : jsstring) (n : Z) :
  parseInt text 10 = Some n -> leadingInteger text n.
Proof.
  unfold parseInt.
  pose proof (takeWhile_dropWhile isWhiteSpace text) as Htext.
  pose proof (takeWhile_Forall isWhiteSpace text) as Hws.
  set (ws := takeWhile isWhiteSpace text) in *.
  set (s1 := dropWhile isWhiteSpace text) in *.
  assert (Hdigits : forall (negative : bool) (sign s2 : jsstring),
            s1 = sign ++ s2 ->
            (sign = [] \/ sign = js "+") /\ negative = false
            \/ sign = js "-" /\ negative = true ->
            match takeWhile (isDigitOf 10) s2 with
            | [] => None
            | d :: digits =>
                Some (if negative then (- digitsValue 10 (d :: digits))%Z
                      else digitsValue 10 (d :: digits))
            end = Some n ->
            leadingInteger text n).
  { intros negative sign s2 Hs1 Hsign.
    pose proof (takeWhile_dropWhile (isDigitOf 10) s2) as Hs2.
    pose proof (takeWhile_Forall (isDigitOf 10) s2) as Hrun.
    pose proof (dropWhile_head (isDigitOf 10) s2) as Hrest.
    destruct (takeWhile (isDigitOf 10) s2) as [| d digits]; [done |].
    apply Forall_isDigitOf_10 in Hrun. intros [= <-].
    exists ws, sign, (d :: digits), (dropWhile (isDigitOf 10) s2).
    split.
    { transitivity (ws ++ s1); [exact Htext |]. rewrite Hs1. do 2 f_equal.
      exact Hs2. }
    split; [done |]. split; [done |].
    split.
    - destruct (dropWhile (isDigitOf 10) s2) as [| c rest]; [done |].
      intros Hc. apply isDigitOf_10 in Hc. by rewrite (Hrest c rest eq_refl) in Hc.
    - rewrite (digitsValue_decimalOf (d :: digits) Hrun).
      destruct Hsign as [[[-> | ->] ->] | [-> ->]]; auto. }
  change (10 =? 16)%Z with false. cbv iota.
  destruct s1 as [| c r] eqn:Hs1.
  - cbn. done.
  - destruct (N.eqb_spec c 45) as [-> | Hminus].
    + apply (Hdigits true (js "-") r); [done | by right].
    + destruct (N.eqb_spec c 43) as [-> | Hplus].
      * apply (Hdigits false (js "+") r); [done | left; auto].
      * apply (Hdigits false [] (c :: r)); [done | left; auto].
Qed.

Lemma parseInt_complete (text : jsstring) (n : Z) :
  leadingInteger text n -> parseInt text 10 = Some n.
Proof.
  intros (ws & sign & digits & rest & -> & Hws & [Hne Hdigits] & Hrest & Hsign).
  destruct digits as [| d digits]; [done |].
  assert (Hd : isDecimal d) by (by inversion Hdigits).
  assert (Hrun : takeWhile (isDigitOf 10) ((d :: digits) ++ rest) = d :: digits).
  { apply span_run; [by apply Forall_isDigitOf_10 |].
    destruct rest as [| c rest]; [done |].
    destruct (isDigitOf 10 c) eqn:Hc; [| done]. by apply isDigitOf_10 in Hc. }
  rewrite <- (digitsValue_decimalOf (d :: digits) Hdigits) in Hsign.
  unfold parseInt. change (10 =? 16)%Z with false. cbv iota.
  unfold isDecimal in Hd.
  destruct Hsign as [[-> ->] | [[-> ->] | [-> ->]]].
  - cbn [app] in *.
    destruct (span_run isWhiteSpace ws (d :: digits ++ rest) Hws
                (decimal_not_space d Hd)) as [_ ->].
    destruct (N.eqb_spec d 45); [lia |]. destruct (N.eqb_spec d 43); [lia |].
    by rewrite Hrun.
  - change (js "+") with [43%N]. cbn [app] in *.
    destruct (span_run isWhiteSpace ws (43%N :: d :: digits ++ rest) Hws eq_refl)
      as [_ ->].
    cbn [N.eqb Pos.eqb]. by rewrite Hrun.
  - change (js "-") with [45%N]. cbn [app] in *.
    destruct (span_run isWhiteSpace ws (45%N :: d :: digits ++ rest) Hws eq_refl)
      as [_ ->].
    cbn [N.eqb Pos.eqb]. by rewrite Hrun.
Qed.

Section OptionsFacts.
Context `{CaseMapping}.
Variable service : AiService.

(** The batch requests read [idea], [videoStyle] and [dialogueLanguage] of
    the options and nothing else. *)
Lemma retryLoop_options (options1 options2 : VideoGenerationOptions)
    (startIndex count : Z) (previousContext storySummary : jsstring) :
  idea options1 = idea options2 ->
  videoStyle options1 = videoStyle options2 ->
  dialogueLanguage options1 = dialogueLanguage options2 ->
  forall remaining w,
    App.retryLoop service remaining options1 startIndex count previousContext
      storySummary w
    = App.retryLoop service remaining options2 startIndex count previousContext
        storySummary w.
Proof using Type.
  intros Hidea Hstyle Hlanguage remaining.
  assert (Hbatch :
    App.generateBatch service options1 startIndex count previousContext storySummary
    = App.generateBatch service options2 startIndex count previousContext
        storySummary)
    by (unfold App.generateBatch; by rewrite Hidea, Hstyle, Hlanguage).
  induction remaining as [| remaining IH]; intros w; cbn [App.retryLoop]; [done |].
  apply tryCatch_ext; [by rewrite Hbatch |]. intros error w1.
  destruct (decide_retry _ error) as [waitTime notice |]; [| done].
  apply bind_ext; [done |]. intros _ w2.
  apply bind_ext; [done |]. intros _ w3. apply IH.
Qed.

Lemma batchRound_options (options1 options2 : VideoGenerationOptions)
    (targetCount totalBatches : Z) :
  idea options1 = idea options2 ->
  videoStyle options1 = videoStyle options2 ->
  dialogueLanguage options1 = dialogueLanguage options2 ->
  forall st batch w,
    App.batchRound service options1 targetCount totalBatches st batch w
    = App.batchRound service options2 targetCount totalBatches st batch w.
Proof using Type.
  intros Hidea Hstyle Hlanguage st batch w.
  unfold App.batchRound, App.generateBatchWithRetry.
  apply bind_ext; [done |]. intros _ w1.
  apply tryCatch_ext; [| done].
  apply bind_ext; [| done].
  by apply retryLoop_options.
Qed.

(** C10, as the code has it.  With a [promptCount] that is missing,
    [NaN], a number that is at most 0, or a text in which [parseInt] finds
    no leading integer or finds one that is at most 0, the target is 5
    scenes and the run of [generateScript] is the run for
    [promptCount = 5]: same outcome, same requests, same trace.  A text
    with a positive leading integer below [2^53] is not such a count,
    whatever follows the integer: the run is the run for that integer. *)
Theorem bad_count_defaults_to_five (options : VideoGenerationOptions)
    (apiKey : jsstring) (w : World) :
  (badCount (promptCount options) ->
   targetCountOf options = 5%Z
   /\ App.generateScript service options apiKey w
      = App.generateScript service (withPromptCount (CountNumber 5) options)
          apiKey w)
  /\ (forall text n,
        promptCount options = CountText text ->
        leadingInteger text n -> (0 < n < 2 ^ 53)%Z ->
        targetCountOf options = n
        /\ App.generateScript service options apiKey w
           = App.generateScript service (withPromptCount (CountNumber n) options)
               apiKey w).
Proof using Type.
  assert (Hrun : forall count target,
            targetCountOf options = target ->
            targetCountOf (withPromptCount count options) = target ->
            App.generateScript service options apiKey w
            = App.generateScript service (withPromptCount count options) apiKey w).
  { intros count target Htarget Htarget'.
    unfold App.generateScript. rewrite Htarget, Htarget'.
    apply bind_ext; [done |]. intros _ w1.
    apply bind_ext; [| done].
    apply forEach_ext. intros st batch w2.
    by apply batchRound_options. }
  split.
  - intros Hbad.
    assert (Htarget : targetCountOf options = 5%Z).
    { unfold targetCountOf, countOf. unfold badCount in Hbad.
      destruct (promptCount options) as [| | n | text]; try done.
      - apply Z.leb_le in Hbad. by rewrite Hbad.
      - destruct (parseInt text 10) as [n |] eqn:Hparse; [| done].
        apply parseInt_sound, Hbad, Z.leb_le in Hparse. by rewrite Hparse. }
    split; [exact Htarget |]. by apply (Hrun _ 5%Z).
  - intros text n Htext Hleading Hn.
    assert (Htarget : targetCountOf options = n).
    { unfold targetCountOf, countOf. rewrite Htext.
      rewrite (parseInt_complete _ _ Hleading).
      destruct (Z.leb_spec n 0); [lia | done]. }
    split; [exact Htarget |]. apply (Hrun _ n Htarget).
    unfold targetCountOf, countOf. cbn [withPromptCount promptCount].
    destruct (Z.leb_spec n 0); [lia | done].
Qed.
End OptionsFacts.

Lemma bad_count_defaults_to_five_witness :
  (badCount (CountText (js "nhiều"))
   /\ targetCountOf (sampleOptions (CountText (js "nhiều"))) = 5%Z
   /\ returnedNumbers
        (@App.generateScript asciiCase obedient
           (sampleOptions (CountText (js "nhiều"))) (js "AIza-key") start)
      = Some [1; 2; 3; 4; 5]%Z)
  /\ (leadingInteger (js "7 scenes") 7
      /\ targetCountOf (sampleOptions (CountText (js "7 scenes"))) = 7%Z
      /\ returnedNumbers
           (@App.generateScript asciiCase obedient
              (sampleOptions (CountText (js "7 scenes"))) (js "AIza-key") start)
         = Some [1; 2; 3; 4; 5; 6; 7]%Z).
Proof.
  split.
  - assert (Hbad : badCount (CountText (js "nhiều"))).
    { intros n Hleading. apply parseInt_complete in Hleading.
      vm_compute in Hleading. discriminate. }
    destruct (@bad_count_defaults_to_five asciiCase obedient
                (sampleOptions (CountText (js "nhiều"))) (js "AIza-key") start)
      as [Hfive _].
    destruct (Hfive Hbad) as [Htarget Hrun].
    split; [exact Hbad |]. split; [exact Htarget |].
    rewrite Hrun. reflexivity.
  - assert (Hleading : leadingInteger (js "7 scenes") 7)
      by (apply parseInt_sound; reflexivity).
    destruct (@bad_count_defaults_to_five asciiCase obedient
                (sampleOptions (CountText (js "7 scenes"))) (js "AIza-key") start)
      as [_ Hcount].
    destruct (Hcount (js "7 scenes") 7%Z eq_refl Hleading) as [Htarget Hrun];
      [split; reflexivity |].
    split; [exact Hleading |]. split; [exact Htarget |].
    rewrite Hrun. reflexivity.
Defined.

(** C10, as stated, fails on a text that is not numeric but starts with
    digits: [23abc] is no number, yet [parseInt] reads 23 from it, and the
    run is the run for 23 scenes, not for 5. *)
Lemma non_numeric_count_not_five :
  ~ numericText (js "23abc")
  /\ leadingInteger (js "23abc") 23
  /\ targetCountOf (sampleOptions (CountText (js "23abc"))) = 23%Z
  /\ returnedNumbers
       (@App.generateScript asciiCase obedient (sampleOptions (CountText (js "23abc")))
          (js "AIza-key") start)
     = Some (seqZ 1 23)
  /\ returnedNumbers
       (@App.generateScript asciiCase obedient (sampleOptions (CountNumber 5))
          (js "AIza-key") start)
     = Some [1; 2; 3; 4; 5]%Z.
Proof.
  split; [| split; [| split; [| split]]].
  - intros (sign & whole & Hsign & [_ Hwhole] & Hshape).
    assert (Hletter : forall s : jsstring, Forall isDecimal s -> 97%N ∉ s).
    { intros s Hs Hin. rewrite Forall_forall in Hs. apply Hs in Hin.
      unfold isDecimal in Hin. lia. }
    assert (Hpoint : 46%N ∉ js "23abc").
    { change (js "23abc") with [50; 51; 97; 98; 99]%N.
      rewrite !elem_of_cons, elem_of_nil. lia. }
    destruct Hshape as [Htext | (fraction & _ & Htext)].
    + assert (Hin : 97%N ∈ js "23abc")
        by (change (js "23abc") with [50; 51; 97; 98; 99]%N;
            rewrite !elem_of_cons; auto).
      rewrite Htext, elem_of_app in Hin. destruct Hin as [Hin | Hin].
      * destruct Hsign as [-> | [-> | ->]].
        -- by apply elem_of_nil in Hin.
        -- change (js "+") with [43%N] in Hin.
           apply list_elem_of_singleton in Hin. lia.
        -- change (js "-") with [45%N] in Hin.
           apply list_elem_of_singleton in Hin. lia.
      * by destruct (Hletter whole Hwhole).
    + apply Hpoint. rewrite Htext, !elem_of_app.
      right. right. left. change (js ".") with [46%N]. by apply list_elem_of_singleton.
  - apply parseInt_sound. reflexivity.
  - reflexivity.
  - reflexivity.
  - reflexivity.
Qed.

Lemma bind_emit {B} (e : Event) (k : unit -> Async B) (w : World) :
  bind (emit e) k w = k tt {| requests := requests w; trace := trace w ++ [e] |}.
Proof. reflexivity. Qed.

Lemma bind_returned {A B} (m : Async A) (k : A -> Async B) (w w1 : World) (a : A) :
  m w = (Returned a, w1) -> bind m k w = k a w1.
Proof. unfold bind. by intros ->. Qed.

Lemma tryCatch_returned {A} (m : Async A) (h : JsError -> Async A) (w w1 : World)
    (a : A) :
  m w = (Returned a, w1) -> tryCatch m h w = (Returned a, w1).
Proof. unfold tryCatch. by intros ->. Qed.

Lemma requestedCounts_app (t1 t2 : list Event) :
  requestedCounts (t1 ++ t2) = requestedCounts t1 ++ requestedCounts t2.
Proof. apply omap_app. Qed.

Lemma requestedCounts_snoc_progress (t : list Event) (msg : jsstring) :
  requestedCounts (t ++ [Progress msg]) = requestedCounts t.
Proof. rewrite requestedCounts_app. apply app_nil_r. Qed.

Lemma requestedCounts_snoc_wait (t : list Event) (ms : Integral) :
  requestedCounts (t ++ [Wait ms]) = requestedCounts t.
Proof. rewrite requestedCounts_app. apply app_nil_r. Qed.

Lemma requestedCounts_snoc_batch (t : list Event) (options : VideoGenerationOptions)
    (startIndex count : Z) (previousContext storySummary : jsstring) :
  requestedCounts
    (t ++ [Sent (batchRequest options startIndex count previousContext storySummary)])
  = requestedCounts t ++ [count].
Proof. by rewrite requestedCounts_app. Qed.

(** The renumbering of a batch: the corrected scenes carry the numbers
    [startIndex], [startIndex + 1], ... whatever the model reported. *)
Lemma correct_numbers (scenes : list Raw.Scene) :
  forall startIndex,
    map Raw.scene (App.correct startIndex scenes)
    = map Some (seqZ startIndex (Z.of_nat (length scenes))).
Proof.
  unfold App.correct.
  induction scenes as [| s scenes IH]; intros startIndex; [done |].
  cbn [length]. rewrite seqZ_cons by lia.
  replace (Z.pred (Z.of_nat (S (length scenes)))) with (Z.of_nat (length scenes))
    by lia.
  cbn [imap map Raw.withScene Raw.scene]. rewrite <- IH.
  f_equal; [f_equal; lia |].
  f_equal. apply imap_ext. intros idx item _. unfold compose. f_equal. lia.
Qed.

Section OrchestratorFacts.
Context `{CaseMapping}.
Variable service : AiService.

(** The scenes of the script carry the numbers of the corrected raw
    scenes. *)
Lemma mapJsonToScenes_numbers (rawScenes : list Raw.Scene) (numbers : list Z) :
  map Raw.scene rawScenes = map Some numbers ->
  Forall (fun n => n <> 0%Z) numbers ->
  map scene_number (App.mapJsonToScenes rawScenes) = numbers.
Proof using Type.
  unfold App.mapJsonToScenes. rewrite map_imap.
  generalize (fun (n : nat) => n). intros shift.
  change (imap (fun n x => scene_number (buildScene (App.continuityLine x) x n)) rawScenes)
    with (imap (fun n x => sceneOr x n) rawScenes).
  revert numbers. generalize 0%nat.
  assert (Hgen : forall (f : nat -> nat) numbers,
             map Raw.scene rawScenes = map Some numbers ->
             Forall (fun n => n <> 0%Z) numbers ->
             imap (fun n x => sceneOr x (f n)) rawScenes = numbers).
  { induction rawScenes as [| item rawScenes IH]; intros f numbers Hscenes Hnonzero.
    - by destruct numbers.
    - destruct numbers as [| n numbers]; [done |].
      cbn [map] in Hscenes. injection Hscenes as Hitem Hrest.
      apply Forall_cons in Hnonzero as [Hn Hnonzero].
      cbn [imap]. f_equal.
      + unfold sceneOr. rewrite Hitem.
        destruct (Z.eqb_spec n 0); [done | done].
      + apply (IH (fun n => f (S n)) numbers Hrest Hnonzero). }
  intros _ numbers. apply (Hgen (fun n => n)).
Qed.

(** A batch under a compliant service: one request, answered at once,
    whose scenes are appended with their corrected numbers. *)
Lemma batchRound_compliant (options : VideoGenerationOptions)
    (targetCount totalBatches : Z) (st : App.Batches) (batch : Z) (w : World) :
  compliant service ->
  (0 < Z.min App.BATCH_SIZE (targetCount - Z.of_nat (length (App.allRawScenes st))))%Z ->
  exists st1 w1 scenes,
    App.batchRound service options targetCount totalBatches st batch w
    = (Returned st1, w1)
    /\ length scenes
       = Z.to_nat (Z.min App.BATCH_SIZE
                     (targetCount - Z.of_nat (length (App.allRawScenes st))))
    /\ App.allRawScenes st1
       = App.allRawScenes st ++ App.correct (batch * App.BATCH_SIZE + 1) scenes
    /\ requestedCounts (trace w1)
       = requestedCounts (trace w)
         ++ [Z.min App.BATCH_SIZE
               (targetCount - Z.of_nat (length (App.allRawScenes st)))].
Proof using Type.
  intros Hcompliant Hcount. unfold App.batchRound.
  set (count := Z.min App.BATCH_SIZE
                  (targetCount - Z.of_nat (length (App.allRawScenes st)))) in *.
  set (startIndex := (batch * App.BATCH_SIZE + 1)%Z).
  unfold onProgress at 1. rewrite bind_emit.
  match goal with
  | |- context [tryCatch _ _ ?w0] => set (w1 := w0)
  end.
  destruct (Hcompliant (requests w1) (idea options) (videoStyle options)
              (dialogueLanguage options) startIndex count
              (App.previousContext st) (App.storySummary st))
    as (scenes & story_summary & Hok & Hlength).
  pose proof (retryLoop_success service options startIndex count
                (App.previousContext st) (App.storySummary st) 9 w1 _ _ Hok)
    as Hrun.
  destruct scenes as [| first rest]; [simpl in Hlength; lia |].
  set (request := batchRequest options startIndex count (App.previousContext st)
                    (App.storySummary st)) in *.
  assert (Htrace : requestedCounts (trace (sent request w1))
                   = requestedCounts (trace w) ++ [count]).
  { unfold sent, w1, request. cbn [trace].
    by rewrite requestedCounts_snoc_batch, requestedCounts_snoc_progress. }
  destruct (batch <? totalBatches - 1)%Z eqn:Hlast.
  - eexists _, _, (first :: rest). split; [| split; [exact Hlength | split]].
    + apply tryCatch_returned. unfold App.generateBatchWithRetry.
      change (Z.to_nat MAX_RETRIES) with 10%nat.
      rewrite (bind_returned _ _ _ _ _ Hrun).
      cbn [App.rawScenes default from_option id]. cbv beta iota.
      unfold onProgress, delay. rewrite !bind_emit. reflexivity.
    + reflexivity.
    + cbn [trace requests].
      by rewrite requestedCounts_snoc_wait, requestedCounts_snoc_progress.
  - eexists _, _, (first :: rest). split; [| split; [exact Hlength | split]].
    + apply tryCatch_returned. unfold App.generateBatchWithRetry.
      change (Z.to_nat MAX_RETRIES) with 10%nat.
      rewrite (bind_returned _ _ _ _ _ Hrun).
      cbn [App.rawScenes default from_option id]. cbv beta iota. reflexivity.
    + reflexivity.
    + exact Htrace.
Qed.
End OrchestratorFacts.

Lemma targetCountOf_positive (options : VideoGenerationOptions) :
  (1 <= targetCountOf options)%Z.
Proof.
  unfold targetCountOf. destruct (countOf options) as [n |]; [| lia].
  destruct (Z.leb_spec n 0); lia.
Qed.

Lemma totalBatchesOf_bounds (targetCount : Z) :
  (targetCount <= 10 * App.totalBatchesOf targetCount <= targetCount + 9)%Z.
Proof.
  unfold App.totalBatchesOf, App.BATCH_SIZE.
  pose proof (Z.div_mod (targetCount + 10 - 1) 10 ltac:(lia)) as Hdiv.
  pose proof (Z.mod_pos_bound (targetCount + 10 - 1) 10 ltac:(lia)) as Hmod.
  lia.
Qed.

Section RunFacts.
Context `{CaseMapping}.
Variable service : AiService.
Variable options : VideoGenerationOptions.
Variable targetCount : Z.

(** The loop over the batches under a compliant service, from batch [k]
    on: every batch asks for [min(10, targetCount - 10 k)] scenes, and at
    the end the raw scenes carry the numbers 1 to [targetCount]. *)
Lemma batches_run :
  compliant service -> (1 <= targetCount)%Z ->
  forall (len : nat) (k : Z) (st : App.Batches) (w : World),
    (0 <= k)%Z ->
    (k + Z.of_nat len = App.totalBatchesOf targetCount)%Z ->
    map Raw.scene (App.allRawScenes st)
    = map Some (seqZ 1 (Z.min (10 * k) targetCount)) ->
    exists st1 w1,
      forEach
        (App.batchRound service options targetCount (App.totalBatchesOf targetCount))
        (seqZ k (Z.of_nat len)) st w
      = (Returned st1, w1)
      /\ map Raw.scene (App.allRawScenes st1) = map Some (seqZ 1 targetCount)
      /\ requestedCounts (trace w1)
         = requestedCounts (trace w)
           ++ map (fun batch => Z.min App.BATCH_SIZE
                                  (targetCount - App.BATCH_SIZE * batch))
                (seqZ k (Z.of_nat len)).
Proof using Type.
  intros Hcompliant Htarget.
  pose proof (totalBatchesOf_bounds targetCount) as Hbounds.
  induction len as [| len IH]; intros k st w Hk Hend Hscenes.
  - exists st, w. cbn [forEach seqZ]. rewrite seqZ_nil by lia.
    split; [done |]. split; [| by rewrite app_nil_r].
    rewrite Hscenes. do 2 f_equal. lia.
  - rewrite seqZ_cons by lia.
    replace (Z.pred (Z.of_nat (S len))) with (Z.of_nat len) by lia.
    cbn [forEach map].
    assert (Hlength : Z.of_nat (length (App.allRawScenes st)) = (10 * k)%Z).
    { rewrite <- (length_map Raw.scene), Hscenes, length_map, length_seqZ. lia. }
    assert (Hcount :
      Z.min App.BATCH_SIZE (targetCount - Z.of_nat (length (App.allRawScenes st)))
      = Z.min App.BATCH_SIZE (targetCount - App.BATCH_SIZE * k))
      by (unfold App.BATCH_SIZE; by rewrite Hlength).
    destruct (batchRound_compliant service options targetCount
                (App.totalBatchesOf targetCount) st k w Hcompliant)
      as (st1 & w1 & scenes & Hround & Hscenes1 & Hall & Htrace).
    { rewrite Hcount. unfold App.BATCH_SIZE. lia. }
    rewrite Hcount in Hscenes1, Htrace.
    destruct (IH (Z.succ k) st1 w1) as (st2 & w2 & Hrun & Hnumbers & Htrace2).
    + lia.
    + lia.
    + rewrite Hall, List.map_app, Hscenes, correct_numbers, <- List.map_app.
      f_equal.
      replace (k * App.BATCH_SIZE + 1)%Z with (1 + Z.min (10 * k) targetCount)%Z
        by (unfold App.BATCH_SIZE; lia).
      rewrite <- seqZ_app by (unfold App.BATCH_SIZE in *; lia).
      f_equal. unfold App.BATCH_SIZE in *. lia.
    + exists st2, w2. split; [| split; [exact Hnumbers |]].
      * by rewrite (bind_returned _ _ _ _ _ Hround).
      * rewrite Htrace2, Htrace. by rewrite <- app_assoc.
Qed.

(** A run of [generateScript] under a compliant service. *)
Lemma generateScript_compliant (apiKey : jsstring) :
  apiKey <> [] -> targetCountOf options = targetCount -> compliant service ->
  exists script w,
    App.generateScript service options apiKey start = (Returned script, w)
    /\ requestedCounts (trace w) = batchSizes targetCount
    /\ map scene_number (scenes script) = seqZ 1 targetCount.
Proof using Type.
  intros Hkey Htarget Hcompliant.
  assert (Hpositive : (1 <= targetCount)%Z)
    by (rewrite <- Htarget; apply targetCountOf_positive).
  pose proof (totalBatchesOf_bounds targetCount) as Hbounds.
  destruct (batches_run Hcompliant Hpositive
              (Z.to_nat (App.totalBatchesOf targetCount)) 0
              {| App.allRawScenes := []; App.storySummary := [];
                 App.previousContext := [] |} start)
    as (st & w & Hrun & Hnumbers & Htrace);
    [lia | lia | by rewrite Z.min_l by lia |].
  rewrite Z2Nat.id in Hrun, Htrace by lia.
  exists {| story_summary := App.storySummary st;
            scenes := App.mapJsonToScenes (App.allRawScenes st) |}, w.
  split; [| split].
  - unfold App.generateScript, createAiClient.
    apply truthy_nonempty in Hkey. rewrite Hkey, Htarget.
    unfold bind at 1. cbn [ret]. by rewrite (bind_returned _ _ _ _ _ Hrun).
  - exact Htrace.
  - cbn [scenes]. apply (mapJsonToScenes_numbers _ _ Hnumbers).
    apply Forall_seqZ. lia.
Qed.
End RunFacts.

(** C1, as the code has it.  With a non-empty API key, [promptCount] 23
    and a service that answers every batch request with exactly the
    number of scenes it asks for, [generateScript] sends three batch
    requests, for 10, 10 and 3 scenes, and returns a script of 23 scenes
    numbered 1 to 23 whatever numbers the model reports.  The scenes of a
    batch are renumbered from its [startIndex] on, one by one. *)
Theorem generateScript_23 `{CaseMapping} (service : AiService)
    (options : VideoGenerationOptions) (apiKey : jsstring) :
  apiKey <> [] -> countOf options = Some 23%Z -> compliant service ->
  (exists script w,
      App.generateScript service options apiKey start = (Returned script, w)
      /\ requestedCounts (trace w) = [10; 10; 3]%Z
      /\ map scene_number (scenes script) = seqZ 1 23)
  /\ (forall startIndex rawScenes,
        map Raw.scene (App.correct startIndex rawScenes)
        = map Some (seqZ startIndex (Z.of_nat (length rawScenes)))).
Proof.
  intros Hkey Hcount Hcompliant. split.
  - apply (generateScript_compliant service options 23 apiKey Hkey); [| done].
    unfold targetCountOf. by rewrite Hcount.
  - intros startIndex rawScenes. apply correct_numbers.
Qed.

Lemma obedient_compliant : compliant obedient.
Proof.
  intros n idea videoStyle dialogueLanguage startIndex count previousContext
    storySummary.
  eexists _, _. split; [reflexivity |]. apply length_replicate.
Qed.

Lemma generateScript_23_witness :
  js "AIza-key" <> []
  /\ countOf (sampleOptions (CountNumber 23)) = Some 23%Z
  /\ compliant obedient
  /\ Raw.scene scene99 = Some 99%Z
  /\ requestedCounts
       (trace (snd (@App.generateScript asciiCase obedient
                      (sampleOptions (CountNumber 23)) (js "AIza-key") start)))
     = [10; 10; 3]%Z
  /\ returnedNumbers
       (@App.generateScript asciiCase obedient (sampleOptions (CountNumber 23))
          (js "AIza-key") start)
     = Some (seqZ 1 23).
Proof.
  assert (Hkey : js "AIza-key" <> []) by discriminate.
  destruct (@generateScript_23 asciiCase obedient (sampleOptions (CountNumber 23))
              (js "AIza-key") Hkey eq_refl obedient_compliant)
    as [(script & w & Hrun & Hcounts & Hnumbers) _].
  split; [exact Hkey |]. split; [reflexivity |].
  split; [exact obedient_compliant |]. split; [reflexivity |].
  unfold returnedNumbers. rewrite Hrun. cbn [fst snd].
  split; [exact Hcounts | by rewrite Hnumbers].
Defined.

(** C1, as stated, fails when the model sends fewer scenes than asked:
    after 7 scenes for the first batch the third request asks for 6
    scenes, and the numbers 8, 9 and 10 are missing from the script. *)
Lemma generateScript_23_short_answer :
  countOf (sampleOptions (CountNumber 23)) = Some 23%Z
  /\ requestedCounts
       (trace (snd (@App.generateScript asciiCase short
                      (sampleOptions (CountNumber 23)) (js "AIza-key") start)))
     = [10; 10; 6]%Z
  /\ returnedNumbers
       (@App.generateScript asciiCase short (sampleOptions (CountNumber 23))
          (js "AIza-key") start)
     = Some (seqZ 1 7 ++ seqZ 11 16)
  /\ returnedNumbers
       (@App.generateScript asciiCase short (sampleOptions (CountNumber 23))
          (js "AIza-key") start)
     <> Some (seqZ 1 23).
Proof.
  split; [reflexivity |]. split; [vm_compute; reflexivity |].
  split; [vm_compute; reflexivity |]. vm_compute. discriminate.
Qed.

(** The single-request [generateScript] of geminiService.ts sends one
    request and keeps the numbers the model reports. *)
Lemma service_generateScript_keeps_numbers :
  returnedNumbers
    (@Service.generateScript asciiCase reporting99 (sampleOptions (CountNumber 23))
       (js "AIza-key") start)
  = Some [99; 99]%Z
  /\ requests
       (snd (@Service.generateScript asciiCase reporting99
               (sampleOptions (CountNumber 23)) (js "AIza-key") start))
     = 1%nat.
Proof. split; vm_compute; reflexivity. Qed.

(** ** extendScript *)

Lemma renumber_numbers (mapped : list Scene) :
  forall startNum,
    map scene_number (renumber startNum mapped)
    = seqZ startNum (Z.of_nat (length mapped)).
Proof.
  unfold renumber.
  induction mapped as [| s mapped IH]; intros startNum; [done |].
  cbn [length]. rewrite seqZ_cons by lia.
  replace (Z.pred (Z.of_nat (S (length mapped)))) with (Z.of_nat (length mapped))
    by lia.
  cbn [imap map withSceneNumber scene_number]. rewrite <- IH.
  f_equal; [lia |].
  f_equal. apply imap_ext. intros i item _. unfold compose. f_equal. lia.
Qed.

Section ExtendFacts.
Context `{CaseMapping}.
Variable service : AiService.

(** C7, as the code has it.  With a non-empty API key and an answer that
    parses, both copies of [extendScript] return one scene per raw scene of
    the answer, numbered consecutively from [lastScene.scene_number + 1]
    whatever numbers the model reports; for scene 23 and an answer of
    exactly 5 scenes these are 24, 25, 26, 27, 28. *)
Theorem extendScript_renumbers (lastScene : Scene) (extensionIdea : jsstring)
    (count : Z) (originalOptions : VideoGenerationOptions) (apiKey : jsstring)
    (w : World) (rawScenes : list Raw.Scene) (story_summary : option jsstring) :
  apiKey <> [] ->
  service (requests w)
    (ExtendPrompt (scene_number lastScene) (script_description lastScene)
       extensionIdea count (videoStyle originalOptions))
  = Parsed (Some rawScenes) story_summary ->
  returnedScenes
    (App.extendScript service lastScene extensionIdea count originalOptions apiKey w)
  = Some (seqZ (scene_number lastScene + 1) (Z.of_nat (length rawScenes)))
  /\ returnedScenes
       (Service.extendScript service lastScene extensionIdea count originalOptions
          apiKey w)
     = Some (seqZ (scene_number lastScene + 1) (Z.of_nat (length rawScenes)))
  /\ (scene_number lastScene = 23%Z -> length rawScenes = 5%nat ->
      returnedScenes
        (App.extendScript service lastScene extensionIdea count originalOptions
           apiKey w)
      = Some [24; 25; 26; 27; 28]%Z
      /\ returnedScenes
           (Service.extendScript service lastScene extensionIdea count
              originalOptions apiKey w)
         = Some [24; 25; 26; 27; 28]%Z).
Proof using Type.
  intros Hkey Hanswer. apply truthy_nonempty in Hkey.
  assert (Happ :
    returnedScenes
      (App.extendScript service lastScene extensionIdea count originalOptions
         apiKey w)
    = Some (seqZ (scene_number lastScene + 1) (Z.of_nat (length rawScenes)))).
  { unfold App.extendScript, createAiClient. rewrite Hkey.
    unfold bind at 1. cbn [ret]. unfold tryCatch, bind, generateContent.
    rewrite Hanswer. unfold returnedScenes. cbn [fst ret default from_option id].
    rewrite renumber_numbers. unfold App.mapJsonToScenes.
    by rewrite length_imap. }
  assert (Hservice :
    returnedScenes
      (Service.extendScript service lastScene extensionIdea count originalOptions
         apiKey w)
    = Some (seqZ (scene_number lastScene + 1) (Z.of_nat (length rawScenes)))).
  { unfold Service.extendScript, createAiClient. rewrite Hkey.
    unfold bind at 1. cbn [ret]. unfold tryCatch, bind, generateContent.
    rewrite Hanswer. unfold returnedScenes. cbn [fst ret default from_option id].
    rewrite renumber_numbers. unfold Service.mapJsonToScenes.
    by rewrite length_imap. }
  split; [exact Happ |]. split; [exact Hservice |].
  intros Hlast Hfive. rewrite Happ, Hservice, Hlast, Hfive. done.
Qed.
End ExtendFacts.

Lemma extendScript_renumbers_witness :
  js "AIza-key" <> []
  /\ obedient 0%nat
       (ExtendPrompt (scene_number scene23) (script_description scene23)
          (js "the fox meets a heron") 5
          (videoStyle (sampleOptions (CountNumber 23))))
     = Parsed (Some (replicate 5 scene99)) None
  /\ returnedScenes
       (@App.extendScript asciiCase obedient scene23 (js "the fox meets a heron") 5
          (sampleOptions (CountNumber 23)) (js "AIza-key") start)
     = Some [24; 25; 26; 27; 28]%Z
  /\ returnedScenes
       (@Service.extendScript asciiCase obedient scene23
          (js "the fox meets a heron") 5 (sampleOptions (CountNumber 23))
          (js "AIza-key") start)
     = Some [24; 25; 26; 27; 28]%Z.
Proof.
  assert (Hkey : js "AIza-key" <> []) by discriminate.
  destruct (@extendScript_renumbers asciiCase obedient scene23
              (js "the fox meets a heron") 5 (sampleOptions (CountNumber 23))
              (js "AIza-key") start (replicate 5 scene99) None Hkey eq_refl)
    as (_ & _ & Hfive).
  destruct (Hfive eq_refl eq_refl) as [Happ Hservice].
  split; [exact Hkey |]. split; [reflexivity |].
  split; [exact Happ | exact Hservice].
Defined.

(** C7, as stated, fails when the model sends 3 scenes where 5 are asked
    for: 3 scenes are returned, numbered 24, 25, 26. *)
Lemma extendScript_three_of_five :
  returnedScenes
    (@App.extendScript asciiCase three scene23 (js "the fox meets a heron") 5
       (sampleOptions (CountNumber 23)) (js "AIza-key") start)
  = Some [24; 25; 26]%Z
  /\ returnedScenes
       (@Service.extendScript asciiCase three scene23 (js "the fox meets a heron") 5
          (sampleOptions (CountNumber 23)) (js "AIza-key") start)
     = Some [24; 25; 26]%Z
  /\ returnedScenes
       (@App.extendScript asciiCase three scene23 (js "the fox meets a heron") 5
          (sampleOptions (CountNumber 23)) (js "AIza-key") start)
     <> Some [24; 25; 26; 27; 28]%Z.
Proof.
  split; [vm_compute; reflexivity |]. split; [vm_compute; reflexivity |].
  vm_compute. discriminate.
Qed.
